(** * Study Tracker API: ownership-scoped handlers over a relational store

    A shallow embedding of [main.py], [models.py] and [schemas.py].
    Tables are finite maps from the declared primary key to the remaining
    columns, a request handler is a function from the store (and the
    authenticated user) to a response together with the store it leaves
    behind.  The SQLAlchemy session is configured with [autoflush=False]
    ([database.py]), so INSERTs and UPDATEs reach the store at [commit]. *)

From Stdlib Require Import ZArith PrimFloat.
From stdpp Require Import gmap strings list fin_maps.

Set Warnings "-register-all,-clear-no-such-hyp".
Open Scope Z_scope.

(** ** Data model *)

(** Values of the [JSON] columns and of [Any]-typed payload fields. *)
Inductive Json : Type :=
  | JNull
  | JBool (b : bool)
  | JInt (z : Z)
  | JFloat (f : float)
  | JStr (s : string)
  | JList (l : list Json)
  | JDict (l : list (string * Json)).

(** [models.py]: one record per table, holding the columns other than the
    primary key; the key is the index of the table's map. *)
Module models.

Record User := mkUser {
  email : string;
  hashed_password : string }.

Record Goal := mkGoal {
  g_title : string;
  g_type : string;
  g_details : Json;
  g_owner_id : Z }.

Record Subject := mkSubject {
  s_goal_id : string;
  s_name : string;
  s_color : string;
  s_tracking_mode : string;
  s_schedule : Json;
  s_total_study_hours : float;
  s_total_target_hours : option float;
  s_owner_id : Z }.

Record Chapter := mkChapter {
  c_subject_id : string;
  c_name : string;
  c_target_date : string;
  c_target_time : option string;
  c_estimated_duration : option string;
  c_completed : bool }.

Record Notification := mkNotification {
  n_subject_id : string;
  n_subject_name : string;
  n_type : string;
  n_scheduled_hours : float;
  n_scheduled_time : string;
  n_scheduled_date : string;
  n_status : string;
  n_read : bool;
  n_timestamp : Z;
  n_owner_id : Z }.

End models.

(** The store: [users] has an integer key, the other tables a
    caller-supplied string key. *)
Record DB := mkDB {
  users : gmap Z models.User;
  goals : gmap string models.Goal;
  subjects : gmap string models.Subject;
  chapters : gmap string models.Chapter;
  notifications : gmap string models.Notification }.

Definition empty_db : DB := mkDB ∅ ∅ ∅ ∅ ∅.

Definition set_users (t : gmap Z models.User) (db : DB) : DB :=
  mkDB t (goals db) (subjects db) (chapters db) (notifications db).
Definition set_goals (t : gmap string models.Goal) (db : DB) : DB :=
  mkDB (users db) t (subjects db) (chapters db) (notifications db).
Definition set_subjects (t : gmap string models.Subject) (db : DB) : DB :=
  mkDB (users db) (goals db) t (chapters db) (notifications db).
Definition set_chapters (t : gmap string models.Chapter) (db : DB) : DB :=
  mkDB (users db) (goals db) (subjects db) t (notifications db).
Definition set_notifications (t : gmap string models.Notification) (db : DB) : DB :=
  mkDB (users db) (goals db) (subjects db) (chapters db) t.

(** [schemas.py]: request payloads and response bodies. *)
Module schemas.

Record UserCreate := mkUserCreate {
  uc_email : string;
  uc_password : string }.

Record User := mkUser {
  u_email : string;
  u_id : Z }.

Record GoalCreate := mkGoalCreate {
  gc_id : string;
  gc_title : string;
  gc_type : string;
  gc_details : Json }.

Record Goal := mkGoal {
  g_id : string;
  g_title : string;
  g_type : string;
  g_details : Json;
  g_owner_id : Z }.

Record SubjectCreate := mkSubjectCreate {
  sc_id : string;
  sc_goalId : string;
  sc_name : string;
  sc_color : string;
  sc_trackingMode : string;
  sc_schedule : Json;
  sc_totalStudyHours : float;
  sc_totalTargetHours : option float }.

Record Subject := mkSubject {
  s_id : string;
  s_goalId : string;
  s_name : string;
  s_color : string;
  s_trackingMode : string;
  s_schedule : Json;
  s_totalStudyHours : float;
  s_totalTargetHours : option float;
  s_owner_id : Z }.

Record NotificationCreate := mkNotificationCreate {
  nc_id : string;
  nc_subjectId : string;
  nc_subjectName : string;
  nc_type : string;
  nc_scheduledHours : float;
  nc_scheduledTime : string;
  nc_scheduledDate : string;
  nc_status : string;
  nc_read : bool;
  nc_timestamp : Z }.

Record Notification := mkNotification {
  n_id : string;
  n_subjectId : string;
  n_subjectName : string;
  n_type : string;
  n_scheduledHours : float;
  n_scheduledTime : string;
  n_scheduledDate : string;
  n_status : string;
  n_read : bool;
  n_timestamp : Z;
  n_owner_id : Z }.

End schemas.

(** ** Failures *)

Record HTTPException := mkHTTPException {
  status_code : Z;
  detail : string;
  headers : list (string * string) }.

(** What a request can fail with: an [HTTPException] raised by the handler,
    the store rejecting a statement (a primary-key violation), or pydantic
    rejecting the construction of a model. The last two are not caught by
    any handler. *)
Inductive Failure : Type :=
  | HTTPError (e : HTTPException)
  | IntegrityError
  | ValidationError.

(** A response, and the store once the request is over. A request that
    fails before [commit] leaves the store as it found it. *)
Definition Outcome (A : Type) : Type := ((Failure + A) * DB)%type.

(** ** Store and query primitives *)

Section Store.
Context {K : Type} `{Countable K} {V : Type}.

(** [query.filter(P).all()] *)
Definition query_all (P : K * V → Prop) `{∀ r, Decision (P r)}
    (t : gmap K V) : list (K * V) :=
  filter P (map_to_list t).

(** [query.filter(P).first()] *)
Definition query_first (P : K * V → Prop) `{∀ r, Decision (P r)}
    (t : gmap K V) : option (K * V) :=
  head (query_all P t).

(** [INSERT]: the primary key must be unused. *)
Definition sql_insert (k : K) (v : V) (t : gmap K V) : option (gmap K V) :=
  match t !! k with
  | Some _ => None
  | None => Some (<[k:=v]> t)
  end.

(** [UPDATE ... WHERE pk = k] *)
Definition sql_update (k : K) (v : V) (t : gmap K V) : gmap K V :=
  alter (λ _, v) k t.

(** [DELETE ... WHERE pk = k] *)
Definition sql_delete (k : K) (t : gmap K V) : gmap K V :=
  delete k t.

(** [query.filter(P).delete()]: one DELETE statement, issued at once;
    no object is loaded, so no relationship cascade runs. *)
Definition query_delete (P : K * V → Prop) `{∀ r, Decision (P r)}
    (t : gmap K V) : gmap K V :=
  filter (λ r, ¬ P r) t.

(** The INSERTs of one flush, in order; the first rejected one aborts. *)
Fixpoint flush_new (new : list (K * V)) (t : gmap K V) : option (gmap K V) :=
  match new with
  | [] => Some t
  | (k, v) :: new' =>
      match sql_insert k v t with
      | Some t' => flush_new new' t'
      | None => None
      end
  end.

End Store.

(** The key the store gives a new [users] row ([Integer] primary key):
    one more than the largest key in use. *)
Definition next_rowid {V : Type} (t : gmap Z V) : Z :=
  1 + foldr Z.max 0 (map_to_list t).*1.

(** [INSERT INTO users]: [email] is declared [unique=True]. *)
Definition insert_user (u : models.User) (t : gmap Z models.User)
    : option (Z * gmap Z models.User) :=
  match query_first (λ r, models.email r.2 = models.email u) t with
  | Some _ => None
  | None =>
      let id := next_rowid t in
      t' ← sql_insert id u t; Some (id, t')
  end.

(** A comprehension whose element expression can raise. *)
Fixpoint collect {A B : Type} (f : A → Failure + B) (l : list A)
    : Failure + list B :=
  match l with
  | [] => inr []
  | x :: l' =>
      match f x with
      | inl e => inl e
      | inr y =>
          match collect f l' with
          | inl e => inl e
          | inr ys => inr (y :: ys)
          end
      end
  end.

(** ** Response models *)

(** [response_model=schemas.User] / [schemas.Goal], read off the ORM
    object's attributes ([from_attributes]). *)
Definition user_from_orm (u : Z * models.User) : schemas.User :=
  schemas.mkUser (models.email u.2) u.1.

Definition goal_from_orm (g : string * models.Goal) : schemas.Goal :=
  schemas.mkGoal g.1 (models.g_title g.2) (models.g_type g.2)
    (models.g_details g.2) (models.g_owner_id g.2).

(** [schemas.Subject(...)] called with keyword arguments. [owner_id: int]
    is declared without a default, so a call that does not pass it
    ([None] here) is rejected by pydantic. *)
Definition schemas_Subject (id goalId name color trackingMode : string)
    (schedule : Json) (totalStudyHours : float)
    (totalTargetHours : option float) (owner_id : option Z)
    : Failure + schemas.Subject :=
  match owner_id with
  | None => inl ValidationError
  | Some o =>
      inr (schemas.mkSubject id goalId name color trackingMode schedule
             totalStudyHours totalTargetHours o)
  end.

(** [schemas.Notification(...)], likewise. *)
Definition schemas_Notification (id subjectId subjectName type : string)
    (scheduledHours : float) (scheduledTime scheduledDate status : string)
    (read : bool) (timestamp : Z) (owner_id : option Z)
    : Failure + schemas.Notification :=
  match owner_id with
  | None => inl ValidationError
  | Some o =>
      inr (schemas.mkNotification id subjectId subjectName type
             scheduledHours scheduledTime scheduledDate status read
             timestamp o)
  end.

(** ** Authentication *)

Definition credentials_exception : HTTPException :=
  mkHTTPException 401 "Could not validate credentials"
    [("WWW-Authenticate", "Bearer")].

Section Auth.
(** [jwt.decode(token, auth.SECRET_KEY, algorithms=[auth.ALGORITHM])]:
    the claims of a token that verifies, [None] where it raises
    [JWTError] (bad signature, malformed, expired). *)
Variable jwt_decode : string → option (gmap string Json).
(** [auth.get_password_hash] *)
Variable get_password_hash : string → string.

(** A ["sub"] that is neither absent, null nor a string does not fit
    [TokenData.email]. *)
Definition get_current_user (db : DB) (token : string)
    : Failure + (Z * models.User) :=
  match jwt_decode token with
  | None => inl (HTTPError credentials_exception)
  | Some payload =>
      match payload !! "sub" with
      | None | Some JNull => inl (HTTPError credentials_exception)
      | Some (JStr email) =>
          match query_first (λ r, models.email r.2 = email) (users db) with
          | None => inl (HTTPError credentials_exception)
          | Some user => inr user
          end
      | Some _ => inl ValidationError
      end
  end.

(** [POST /signup] *)
Definition signup (user : schemas.UserCreate) (db : DB)
    : Outcome schemas.User :=
  match query_first (λ r, models.email r.2 = schemas.uc_email user)
          (users db) with
  | Some _ =>
      (inl (HTTPError (mkHTTPException 400 "Email already registered" [])),
       db)
  | None =>
      let hashed_password := get_password_hash (schemas.uc_password user) in
      let new_user := models.mkUser (schemas.uc_email user) hashed_password in
      match insert_user new_user (users db) with
      | None => (inl IntegrityError, db)
      | Some (id, t) => (inr (user_from_orm (id, new_user)), set_users t db)
      end
  end.

End Auth.

(** ** Handlers behind [Depends(get_current_user)]

    [current_user] is the ORM object the dependency resolved: the key of
    the [users] row and the row. *)

Definition not_found (what : string) : Failure :=
  HTTPError (mkHTTPException 404 (what +:+ " not found") []).

(** *** Goals *)

(** [GET /goals] *)
Definition read_goals (current_user : Z * models.User) (db : DB)
    : Outcome (list schemas.Goal) :=
  (inr (goal_from_orm <$>
          query_all (λ r, models.g_owner_id r.2 = current_user.1) (goals db)),
   db).

(** [POST /goals]: builds a new [models.Goal] and adds it; [commit] issues
    the INSERT. *)
Definition create_goal (goal : schemas.GoalCreate)
    (current_user : Z * models.User) (db : DB) : Outcome schemas.Goal :=
  let db_goal :=
    (schemas.gc_id goal,
     models.mkGoal (schemas.gc_title goal) (schemas.gc_type goal)
       (schemas.gc_details goal) current_user.1) in
  match sql_insert db_goal.1 db_goal.2 (goals db) with
  | None => (inl IntegrityError, db)
  | Some t => (inr (goal_from_orm db_goal), set_goals t db)
  end.

(** [DELETE /goals/{goal_id}]. The subjects are deleted by a query, the
    goal as a loaded object; the answer is the ["message"] of the body. *)
Definition delete_goal (goal_id : string) (current_user : Z * models.User)
    (db : DB) : Outcome string :=
  match query_first
          (λ r, r.1 = goal_id ∧ models.g_owner_id r.2 = current_user.1)
          (goals db) with
  | None => (inl (not_found "Goal"), db)
  | Some db_goal =>
      let subjects' :=
        query_delete (λ r, models.s_goal_id r.2 = goal_id) (subjects db) in
      let goals' := sql_delete db_goal.1 (goals db) in
      (inr "Goal deleted", set_goals goals' (set_subjects subjects' db))
  end.

(** *** Subjects *)

Definition subject_schema (s : string * models.Subject)
    : Failure + schemas.Subject :=
  schemas_Subject s.1 (models.s_goal_id s.2) (models.s_name s.2)
    (models.s_color s.2) (models.s_tracking_mode s.2) (models.s_schedule s.2)
    (models.s_total_study_hours s.2) (models.s_total_target_hours s.2)
    None.

(** [GET /subjects] *)
Definition read_subjects (current_user : Z * models.User) (db : DB)
    : Outcome (list schemas.Subject) :=
  let db_subjects :=
    query_all (λ r, models.s_owner_id r.2 = current_user.1) (subjects db) in
  (collect subject_schema db_subjects, db).

(** The [data] dictionary of [create_or_update_subject], less its ["id"]. *)
Definition subject_data (subject : schemas.SubjectCreate) (owner_id : Z)
    : models.Subject :=
  models.mkSubject (schemas.sc_goalId subject) (schemas.sc_name subject)
    (schemas.sc_color subject) (schemas.sc_trackingMode subject)
    (schemas.sc_schedule subject) (schemas.sc_totalStudyHours subject)
    (schemas.sc_totalTargetHours subject) owner_id.

(** [POST /subjects]. The row found is written by key at [commit]; a row
    not found is added, and [commit] issues its INSERT. The response model
    is built after the commit. *)
Definition create_or_update_subject (subject : schemas.SubjectCreate)
    (current_user : Z * models.User) (db : DB) : Outcome schemas.Subject :=
  let db_subject :=
    query_first
      (λ r, r.1 = schemas.sc_id subject ∧
            models.s_owner_id r.2 = current_user.1)
      (subjects db) in
  let data := subject_data subject current_user.1 in
  let committed :=
    match db_subject with
    | Some found => Some (sql_update found.1 data (subjects db))
    | None => sql_insert (schemas.sc_id subject) data (subjects db)
    end in
  match committed with
  | None => (inl IntegrityError, db)
  | Some t => (subject_schema (schemas.sc_id subject, data), set_subjects t db)
  end.

(** [db.delete(db_subject)] with [Subject.chapters] declared
    [cascade="all, delete-orphan"]: the chapters of the subject are loaded
    and deleted one by one, then the subject. *)
Definition delete_cascade_subject (k : string) (db : DB) : DB :=
  let loaded :=
    query_all (λ r, models.c_subject_id r.2 = k) (chapters db) in
  let chapters' := foldr (λ c t, sql_delete c.1 t) (chapters db) loaded in
  set_chapters chapters' (set_subjects (sql_delete k (subjects db)) db).

(** [DELETE /subjects/{subject_id}] *)
Definition delete_subject (subject_id : string)
    (current_user : Z * models.User) (db : DB) : Outcome string :=
  match query_first
          (λ r, r.1 = subject_id ∧ models.s_owner_id r.2 = current_user.1)
          (subjects db) with
  | None => (inl (not_found "Subject"), db)
  | Some db_subject =>
      (inr "Subject deleted", delete_cascade_subject db_subject.1 db)
  end.

(** *** Notifications *)

Definition notification_schema (n : string * models.Notification)
    : Failure + schemas.Notification :=
  schemas_Notification n.1 (models.n_subject_id n.2)
    (models.n_subject_name n.2) (models.n_type n.2)
    (models.n_scheduled_hours n.2) (models.n_scheduled_time n.2)
    (models.n_scheduled_date n.2) (models.n_status n.2) (models.n_read n.2)
    (models.n_timestamp n.2) None.

(** The rows [read_notifications] selects. *)
Definition db_notifs (current_user : Z * models.User) (db : DB)
    : list (string * models.Notification) :=
  query_all (λ r, models.n_owner_id r.2 = current_user.1) (notifications db).

(** [GET /notifications] *)
Definition read_notifications (current_user : Z * models.User) (db : DB)
    : Outcome (list schemas.Notification) :=
  (collect notification_schema (db_notifs current_user db), db).

(** The [data] dictionary of [sync_notifications], less its ["id"]. *)
Definition notification_data (n : schemas.NotificationCreate) (owner_id : Z)
    : models.Notification :=
  models.mkNotification (schemas.nc_subjectId n) (schemas.nc_subjectName n)
    (schemas.nc_type n) (schemas.nc_scheduledHours n)
    (schemas.nc_scheduledTime n) (schemas.nc_scheduledDate n)
    (schemas.nc_status n) (schemas.nc_read n) (schemas.nc_timestamp n)
    owner_id.

(** What the session holds while the loop of [sync_notifications] runs:
    the attributes set on rows it loaded ([dirty], by key) and the objects
    added ([new], in order). Nothing is flushed before [commit], so every
    query of the loop sees the table as the request found it. *)
Record Session := mkSession {
  dirty : gmap string models.Notification;
  new : list (string * models.Notification) }.

Fixpoint sync_loop (ns : list schemas.NotificationCreate)
    (current_user : Z * models.User) (db : DB) (sess : Session) : Session :=
  match ns with
  | [] => sess
  | n :: ns' =>
      let db_n :=
        query_first
          (λ r, r.1 = schemas.nc_id n ∧
                models.n_owner_id r.2 = current_user.1)
          (notifications db) in
      let data := notification_data n current_user.1 in
      match db_n with
      | Some found =>
          sync_loop ns' current_user db
            (mkSession (<[found.1 := data]> (dirty sess)) (new sess))
      | None =>
          sync_loop ns' current_user db
            (mkSession (dirty sess) (new sess ++ [(schemas.nc_id n, data)]))
      end
  end.

(** [db.commit()]: an UPDATE by key for each modified row, then the
    INSERTs. A used key is the one rejection it has; a value that a column
    cannot hold is outside it (see [storable] below). *)
Definition commit_session (sess : Session)
    (t : gmap string models.Notification)
    : option (gmap string models.Notification) :=
  flush_new (new sess) (map_fold sql_update t (dirty sess)).

(** [POST /notifications/sync] *)
Definition sync_notifications (ns : list schemas.NotificationCreate)
    (current_user : Z * models.User) (db : DB)
    : Outcome (list schemas.Notification) :=
  let sess := sync_loop ns current_user db (mkSession ∅ []) in
  match commit_session sess (notifications db) with
  | None => (inl IntegrityError, db)
  | Some t => read_notifications current_user (set_notifications t db)
  end.

(** ** The repository pattern as the specification words it

    Second definitions, written after the specification's section on the
    ownership-scoped repository, to compare the handlers with. *)

(** [upsert(owner, id, fields)]: a row with this id and this owner is
    overwritten in place; an id held by another owner counts as not found
    for this owner and no row is created; otherwise a row owned by
    [owner] is created. *)
Definition spec_upsert (owner : Z) (n : schemas.NotificationCreate)
    (t : gmap string models.Notification) : gmap string models.Notification :=
  match t !! schemas.nc_id n with
  | Some row =>
      if decide (models.n_owner_id row = owner)
      then <[schemas.nc_id n := notification_data n owner]> t
      else t
  | None => <[schemas.nc_id n := notification_data n owner]> t
  end.

(** [syncMany(owner, [fields...])]: [upsert] for each element in turn. *)
Definition spec_syncMany (owner : Z) (ns : list schemas.NotificationCreate)
    (t : gmap string models.Notification) : gmap string models.Notification :=
  foldl (λ t n, spec_upsert owner n t) t ns.

(** The row at key [k] belongs to [owner]. *)
Definition owned_by (owner : Z) (t : gmap string models.Notification)
    (k : string) : Prop :=
  models.n_owner_id <$> t !! k = Some owner.

#[global] Instance owned_by_dec (owner : Z)
    (t : gmap string models.Notification) (k : string)
    : Decision (owned_by owner t k).
Proof. unfold owned_by. apply _. Defined.

(** The last element of a batch that carries the id [k]. *)
Definition last_write (k : string) (ns : list schemas.NotificationCreate)
    : option schemas.NotificationCreate :=
  last (filter (λ n, schemas.nc_id n = k) ns).

(** A batch the store accepts: no element's id is held by a row of another
    owner, and no id the caller does not hold yet comes twice. *)
Definition sync_admissible (owner : Z) (ns : list schemas.NotificationCreate)
    (t : gmap string models.Notification) : Prop :=
  Forall
    (λ n, from_option (λ row, models.n_owner_id row = owner) True
            (t !! schemas.nc_id n))
    ns
  ∧ NoDup (schemas.nc_id <$>
             filter (λ n, ¬ owned_by owner t (schemas.nc_id n)) ns).

#[global] Instance sync_admissible_dec (owner : Z)
    (ns : list schemas.NotificationCreate)
    (t : gmap string models.Notification)
    : Decision (sync_admissible owner ns t).
Proof.
  unfold sync_admissible. apply and_dec; [|apply _].
  apply Forall_dec. intros n.
  destruct (t !! schemas.nc_id n); simpl; apply _.
Defined.

(** ** Values the store keeps as they are sent

    The tables above hold any integer and any float. The default store
    (SQLite) does not: an [Integer] column holds a signed 64-bit value, and
    binding a larger one fails the statement, so that the commit stores
    nothing; a NaN bound to a [Float] column is kept as NULL. Statements on
    what a batch writes are made for the payloads below, on which the tables
    and the store agree. *)

(** What an [Integer] column holds. *)
Definition fits_INTEGER (z : Z) : Prop := - 2 ^ 63 ≤ z < 2 ^ 63.

(** A notification payload whose [timestamp] fits the column and whose
    [scheduledHours] is a number. *)
Definition storable (n : schemas.NotificationCreate) : Prop :=
  fits_INTEGER (schemas.nc_timestamp n)
  ∧ PrimFloat.is_nan (schemas.nc_scheduledHours n) = false.

#[global] Instance storable_dec (n : schemas.NotificationCreate)
    : Decision (storable n).
Proof. unfold storable, fits_INTEGER. apply _. Defined.

(** ** Two users and a token decoder, for the worked requests *)

Definition alice : Z * models.User := (1, models.mkUser "a@x.com" "$2b$a").
Definition bob : Z * models.User := (2, models.mkUser "b@x.com" "$2b$b").

Definition two_users : DB :=
  set_users (<[alice.1 := alice.2]> (<[bob.1 := bob.2]> ∅)) empty_db.

(** Three tokens that verify (one for a stored user, one without a ["sub"]
    claim, one for an address no row carries); every other string raises
    [JWTError]. *)
Definition demo_jwt_decode (token : string) : option (gmap string Json) :=
  if decide (token = "token-alice") then
    Some (<["sub" := JStr "a@x.com"]> (<["exp" := JInt 1767225600]> ∅))
  else if decide (token = "token-no-sub") then
    Some (<["exp" := JInt 1767225600]> ∅)
  else if decide (token = "token-ghost") then
    Some (<["sub" := JStr "ghost@x.com"]> (<["exp" := JInt 1767225600]> ∅))
  else None.

Definition demo_hash (password : string) : string := "$2b$" +:+ password.

(** Bob's goal ["g1"], and a subject of Alice's that names it. *)
Definition goal_g1 : schemas.GoalCreate :=
  schemas.mkGoalCreate "g1" "Finals" "EXAM" JNull.

Definition subject_s1 : schemas.SubjectCreate :=
  schemas.mkSubjectCreate "s1" "g1" "Math" "#ff0000" "SCHEDULE" JNull
    0%float None.

Definition shared_goal_db : DB :=
  set_subjects {[ "s1" := subject_data subject_s1 alice.1 ]}
    (set_goals {[ "g1" := models.mkGoal "Finals" "EXAM" JNull bob.1 ]}
       two_users).

(** Alice's goal ["g1"], her subject ["s1"] under it, and a chapter of that
    subject. *)
Definition chapter_c1 : models.Chapter :=
  models.mkChapter "s1" "Limits" "2026-01-10" None None false.

Definition alice_study_db : DB :=
  set_chapters {[ "c1" := chapter_c1 ]}
    (set_subjects {[ "s1" := subject_data subject_s1 alice.1 ]}
       (set_goals {[ "g1" := models.mkGoal "Finals" "EXAM" JNull alice.1 ]}
          two_users)).

(** The same goal id, posted again with another title. *)
Definition goal_g1_retitled : schemas.GoalCreate :=
  schemas.mkGoalCreate "g1" "Finals (moved)" "EXAM" JNull.

(** Alice holds the notification ["n1"]; Bob sends a batch that carries a
    new id and then that id. *)
Definition notif (id status : string) : schemas.NotificationCreate :=
  schemas.mkNotificationCreate id "s1" "Math" "REMINDER" 1.5%float
    "18:00" "2026-01-10" status false 1767225600.

Definition alice_notif_db : DB :=
  set_notifications {[ "n1" := notification_data (notif "n1" "PENDING") alice.1 ]}
    two_users.

(** Alice holds the subject ["s1"]. *)
Definition alice_subject_db : DB :=
  set_subjects {[ "s1" := subject_data subject_s1 alice.1 ]} two_users.

(** ** Login *)

(** [schemas.Token] *)
Record Token := mkToken {
  access_token : string;
  token_type : string }.

Definition incorrect_login : HTTPException :=
  mkHTTPException 401 "Incorrect email or password"
    [("WWW-Authenticate", "Bearer")].

Section Login.
(** [auth.verify_password(plain, hashed)] *)
Variable verify_password : string → string → bool.
(** [auth.create_access_token(data=...)] *)
Variable create_access_token : gmap string Json → string.

(** [POST /token], on the [username] and [password] of the form. *)
Definition login_for_access_token (username password : string) (db : DB)
    : Outcome Token :=
  match query_first (λ r, models.email r.2 = username) (users db) with
  | None => (inl (HTTPError incorrect_login), db)
  | Some user =>
      if verify_password password (models.hashed_password user.2)
      then
        let access_token :=
          create_access_token {[ "sub" := JStr (models.email user.2) ]} in
        (inr (mkToken access_token "bearer"), db)
      else (inl (HTTPError incorrect_login), db)
  end.

End Login.

(** No two [users] rows carry the same email (the column is declared
    [unique=True]). *)
Definition emails_unique (t : gmap Z models.User) : Prop :=
  ∀ i j u v, t !! i = Some u → t !! j = Some v →
             models.email u = models.email v → i = j.

(** ** [database.py]: the engine URL *)

Module database.

(** The rest of [s] after [p], when [s] starts with [p]. *)
Fixpoint strip_prefix (p s : string) : option string :=
  match p, s with
  | EmptyString, _ => Some s
  | String a p', String b s' =>
      if decide (a = b) then strip_prefix p' s' else None
  | String _ _, EmptyString => None
  end.

(** [s.startswith(p)] *)
Definition startswith (s p : string) : bool :=
  bool_decide (is_Some (strip_prefix p s)).

(** [s.replace(old, new, 1)]: the leftmost occurrence of [old] only. *)
Fixpoint replace_first (old new s : string) : string :=
  match strip_prefix old s with
  | Some rest => new +:+ rest
  | None =>
      match s with
      | EmptyString => EmptyString
      | String c s' => String c (replace_first old new s')
      end
  end.

(** [sub in s] *)
Fixpoint contains (sub s : string) : bool :=
  match strip_prefix sub s with
  | Some _ => true
  | None =>
      match s with
      | EmptyString => false
      | String _ s' => contains sub s'
      end
  end.

(** [os.getenv(key, default)] *)
Definition getenv (environ : gmap string string) (key default : string)
    : string :=
  match environ !! key with
  | Some v => v
  | None => default
  end.

Definition SQLALCHEMY_DATABASE_URL (environ : gmap string string) : string :=
  let url := getenv environ "DATABASE_URL" "sqlite:///./study_tracker.db" in
  if startswith url "postgres://"
  then replace_first "postgres://" "postgresql://" url
  else url.

(** The [connect_args] handed to [create_engine]. *)
Definition connect_args (url : string) : list (string * bool) :=
  if contains "sqlite" url then [("check_same_thread", false)] else [].

End database.

(** A token service for the worked requests: the token of a payload is its
    ["sub"] behind a tag, and decoding adds an expiry. *)
Definition demo_create_access_token (data : gmap string Json) : string :=
  match data !! "sub" with
  | Some (JStr sub) => "jwt:" +:+ sub
  | _ => "jwt:"
  end.

Definition demo_decode (token : string) : option (gmap string Json) :=
  match database.strip_prefix "jwt:" token with
  | Some sub => Some (<["sub" := JStr sub]> {[ "exp" := JInt 1767225600 ]})
  | None => None
  end.

Definition demo_verify (password hashed : string) : bool :=
  bool_decide (hashed = demo_hash password).

(** * Properties *)

(** ** The store primitives *)

Section StoreFacts.
Context {K : Type} `{Countable K} {V : Type}.
Implicit Types (t : gmap K V) (k : K) (v : V).

Lemma elem_of_query_all (P : K * V → Prop) `{∀ r, Decision (P r)} t r :
  r ∈ query_all P t ↔ P r ∧ t !! r.1 = Some r.2.
Proof.
  unfold query_all. rewrite list_elem_of_filter.
  destruct r as [k v]. by rewrite elem_of_map_to_list.
Qed.

Lemma query_first_Some (P : K * V → Prop) `{∀ r, Decision (P r)} t r :
  query_first P t = Some r → P r ∧ t !! r.1 = Some r.2.
Proof.
  unfold query_first. intros Hhd.
  apply (elem_of_query_all P). destruct (query_all P t); simplify_eq/=.
  apply list_elem_of_here.
Qed.

Lemma query_first_None (P : K * V → Prop) `{∀ r, Decision (P r)} t :
  query_first P t = None ↔ ∀ k v, t !! k = Some v → ¬ P (k, v).
Proof.
  unfold query_first. rewrite head_None. split.
  - intros Hnil k v Hk HP.
    assert ((k, v) ∈ query_all P t) as Hin by by apply (elem_of_query_all P).
    rewrite Hnil in Hin. by apply not_elem_of_nil in Hin.
  - intros Hno. destruct (query_all P t) as [|[k v] l] eqn:E; [done|].
    assert ((k, v) ∈ query_all P t) as Hin by (rewrite E; apply list_elem_of_here).
    apply (elem_of_query_all P) in Hin as [HP Hk]. by destruct (Hno k v).
Qed.

(** A query that fixes the primary key selects at most the row at that
    key. *)
Lemma query_all_key (Q : V → Prop) `{∀ v, Decision (Q v)} k
    `{∀ r : K * V, Decision (r.1 = k ∧ Q r.2)} t :
  query_all (λ r, r.1 = k ∧ Q r.2) t =
    match t !! k with
    | Some v => if decide (Q v) then [(k, v)] else []
    | None => []
    end.
Proof.
  set (P := λ r : K * V, r.1 = k ∧ Q r.2).
  assert (NoDup (query_all P t)) as Hnd.
  { apply NoDup_filter, NoDup_map_to_list. }
  assert (∀ r, r ∈ query_all P t ↔ ∃ v, r = (k, v) ∧ t !! k = Some v ∧ Q v)
    as Hin.
  { intros [k' v']. rewrite (elem_of_query_all P). unfold P; simpl.
    split.
    - intros [[-> HQ] Hk]. by exists v'.
    - intros (v & [= -> ->] & Hk & HQ). done. }
  destruct (query_all P t) as [|r l] eqn:E.
  - destruct (t !! k) as [v|] eqn:Hk; [|done].
    case_decide as HQ; [|done].
    assert ((k, v) ∈ @nil (K * V)) as Hbad by (apply Hin; eauto).
    by apply not_elem_of_nil in Hbad.
  - destruct (proj1 (Hin r)) as (v & -> & Hk & HQ); [apply list_elem_of_here|].
    rewrite Hk, decide_True by done.
    destruct l as [|r' l]; [done|].
    destruct (proj1 (Hin r')) as (v' & -> & Hk' & _).
    { apply list_elem_of_further, list_elem_of_here. }
    assert (v' = v) as -> by congruence.
    apply NoDup_cons in Hnd as [Hnin _].
    destruct Hnin. apply list_elem_of_here.
Qed.

Lemma query_first_key (Q : V → Prop) `{∀ v, Decision (Q v)} k
    `{∀ r : K * V, Decision (r.1 = k ∧ Q r.2)} t :
  query_first (λ r, r.1 = k ∧ Q r.2) t =
    match t !! k with
    | Some v => if decide (Q v) then Some (k, v) else None
    | None => None
    end.
Proof.
  unfold query_first. rewrite (query_all_key Q).
  destruct (t !! k); [by case_decide|done].
Qed.

Lemma sql_insert_Some k v t t' :
  sql_insert k v t = Some t' ↔ t !! k = None ∧ t' = <[k:=v]> t.
Proof.
  unfold sql_insert. destruct (t !! k); split; try done.
  - by intros [? _].
  - by intros [= <-].
  - by intros [_ ->].
Qed.

Lemma sql_insert_None k v t :
  sql_insert k v t = None ↔ is_Some (t !! k).
Proof.
  unfold sql_insert. destruct (t !! k) as [w|].
  - split; [by eexists|done].
  - split; [done|by intros [? ?]].
Qed.

Lemma lookup_sql_update k v t j :
  sql_update k v t !! j =
    if decide (k = j) then (λ _, v) <$> t !! j else t !! j.
Proof.
  unfold sql_update. rewrite lookup_alter. by case_decide; subst.
Qed.

Lemma sql_update_insert k v t :
  is_Some (t !! k) → sql_update k v t = <[k:=v]> t.
Proof.
  intros [w Hw]. apply map_eq; intros j.
  rewrite lookup_sql_update, lookup_insert.
  case_decide; subst; by rewrite ?Hw.
Qed.

Lemma lookup_query_delete (P : K * V → Prop) `{∀ r, Decision (P r)} t k :
  query_delete P t !! k =
    match t !! k with
    | Some v => if decide (P (k, v)) then None else Some v
    | None => None
    end.
Proof.
  unfold query_delete. destruct (t !! k) as [v|] eqn:Hk.
  - case_decide as HP.
    + apply map_lookup_filter_None. right. intros v' Hv'. naive_solver.
    + by apply map_lookup_filter_Some.
  - apply map_lookup_filter_None. by left.
Qed.

(** Deleting the rows a query loaded, one by one. *)
Lemma lookup_delete_loaded (l : list (K * V)) t k :
  foldr (λ c t, sql_delete c.1 t) t l !! k =
    if decide (k ∈ l.*1) then None else t !! k.
Proof.
  induction l as [|[k' v'] l IH]; simpl; [done|].
  unfold sql_delete at 1. rewrite lookup_delete, IH.
  repeat case_decide; set_solver.
Qed.

Lemma lookup_flush_dirty (d : gmap K V) t k :
  map_fold sql_update t d !! k =
    match d !! k with
    | Some v => (λ _, v) <$> t !! k
    | None => t !! k
    end.
Proof.
  induction d as [|j x d Hj Hfold IH] using map_first_key_ind.
  - by rewrite map_fold_empty.
  - rewrite map_fold_insert_first_key by done.
    rewrite lookup_sql_update, IH, lookup_insert.
    case_decide; subst; [|done].
    rewrite Hj. by destruct (t !! k).
Qed.

Lemma flush_new_Some (new : list (K * V)) t t' :
  flush_new new t = Some t' ↔
    NoDup new.*1 ∧ (∀ k, k ∈ new.*1 → t !! k = None) ∧
    t' = list_to_map new ∪ t.
Proof.
  revert t t'. induction new as [|[k v] new IH]; intros t t'; simpl.
  - rewrite (left_id_L ∅ (∪)). split.
    + intros [= ->]. split_and!; [constructor|set_solver|done].
    + by intros (_ & _ & ->).
  - destruct (sql_insert k v t) as [t1|] eqn:E.
    + apply sql_insert_Some in E as [Hk ->]. rewrite IH, NoDup_cons.
      assert (k ∉ new.*1 →
              list_to_map new ∪ <[k:=v]> t
              = <[k:=v]> (list_to_map new) ∪ t) as Hcomm.
      { intros Hnin. rewrite <-insert_union_l.
        symmetry. apply insert_union_r.
        by apply not_elem_of_list_to_map_1. }
      split.
      * intros (Hnd & Hfree & ->).
        assert (k ∉ new.*1) as Hnin.
        { intros Hin. specialize (Hfree k Hin).
          by rewrite lookup_insert_eq in Hfree. }
        split_and!; [done..| |by apply Hcomm].
        intros j [->|Hj]%elem_of_cons; [done|].
        specialize (Hfree j Hj).
        rewrite lookup_insert in Hfree. by case_decide.
      * intros ((Hnin & Hnd) & Hfree & ->).
        split_and!; [done| |symmetry; by apply Hcomm].
        intros j Hj. rewrite lookup_insert_ne by set_solver.
        apply Hfree. set_solver.
    + apply sql_insert_None in E as [w Hw]. split; [done|].
      intros (_ & Hfree & _). rewrite Hfree in Hw by set_solver. done.
Qed.

End StoreFacts.

Lemma next_rowid_fresh {V : Type} (t : gmap Z V) : t !! next_rowid t = None.
Proof.
  assert (∀ (l : list Z) k, k ∈ l → k ≤ foldr Z.max 0 l) as Hmax.
  { induction l as [|x l IH]; intros k; [by intros ?%not_elem_of_nil|].
    intros [->|Hk]%elem_of_cons; simpl; [lia|]. specialize (IH k Hk). lia. }
  destruct (t !! next_rowid t) as [v|] eqn:E; [|done].
  assert (next_rowid t ∈ (map_to_list t).*1) as Hin.
  { apply list_elem_of_fmap. exists (next_rowid t, v).
    split; [done|]. by apply elem_of_map_to_list. }
  apply Hmax in Hin. unfold next_rowid in Hin at 1. lia.
Qed.

(** ** Identity resolution *)

(** C5: a token that does not verify, a verified payload without an
    identity claim, and a claim that matches no stored user all end in the
    same failure: the one [credentials_exception] value (status 401, the
    same detail and headers). *)
Theorem get_current_user_unauthenticated_uniform
    (jwt_decode : string → option (gmap string Json))
    (db : DB) (token : string) :
  jwt_decode token = None
  ∨ (∃ payload, jwt_decode token = Some payload ∧
       (payload !! "sub" = None ∨ payload !! "sub" = Some JNull))
  ∨ (∃ payload email, jwt_decode token = Some payload ∧
       payload !! "sub" = Some (JStr email) ∧
       map_Forall (λ _ u, models.email u ≠ email) (users db)) →
  get_current_user jwt_decode db token = inl (HTTPError credentials_exception).
Proof.
  unfold get_current_user.
  intros [-> | [(payload & -> & [-> | ->]) | (payload & email & -> & -> & Hno)]];
    try done.
  destruct (query_first _ (users db)) as [[id u]|] eqn:E; [|done].
  apply query_first_Some in E as [Hmail Hid]; simpl in *.
  by destruct (Hno id u).
Qed.

Lemma get_current_user_unauthenticated_uniform_witness :
  get_current_user demo_jwt_decode two_users "not-a-jwt"
    = inl (HTTPError credentials_exception)
  ∧ get_current_user demo_jwt_decode two_users "token-no-sub"
    = inl (HTTPError credentials_exception)
  ∧ get_current_user demo_jwt_decode two_users "token-ghost"
    = inl (HTTPError credentials_exception).
Proof.
  split_and!; apply get_current_user_unauthenticated_uniform.
  - left. reflexivity.
  - right; left. eexists. split; [reflexivity|]. left. reflexivity.
  - right; right. eexists _, _. split_and!; [reflexivity..|].
    refine (bool_decide_unpack _ _). vm_compute. exact I.
Defined.

(** The same resolver does return the stored user for a good token. *)
Example get_current_user_alice :
  get_current_user demo_jwt_decode two_users "token-alice" = inr alice.
Proof. vm_compute. reflexivity. Qed.

(** ** Signup *)

(** C6: a signup whose email is that of a stored user fails with
    "Email already registered" (status 400) and leaves the store as it
    was; a signup with an unused email succeeds and adds exactly one row,
    at a fresh key, carrying that email. *)
Theorem signup_email_taken_or_created
    (get_password_hash : string → string)
    (user : schemas.UserCreate) (db : DB) :
  ((∃ id u, users db !! id = Some u ∧
            models.email u = schemas.uc_email user) →
   signup get_password_hash user db =
     (inl (HTTPError (mkHTTPException 400 "Email already registered" [])),
      db))
  ∧ (map_Forall (λ _ u, models.email u ≠ schemas.uc_email user) (users db) →
     ∃ id, users db !! id = None ∧
       signup get_password_hash user db =
         (inr (schemas.mkUser (schemas.uc_email user) id),
          set_users
            (<[id := models.mkUser (schemas.uc_email user)
                       (get_password_hash (schemas.uc_password user))]>
               (users db))
            db)).
Proof.
  unfold signup. split.
  - intros (id & u & Hid & Hmail).
    destruct (query_first _ (users db)) eqn:E; [done|].
    rewrite query_first_None in E. by destruct (E id u).
  - intros Hfree.
    assert (query_first
              (λ r : Z * models.User, models.email r.2 = schemas.uc_email user)
              (users db) = None) as Hq.
    { apply query_first_None. intros k v Hk. by apply (Hfree k v). }
    rewrite Hq. unfold insert_user; simpl. rewrite Hq.
    unfold sql_insert. rewrite next_rowid_fresh; simpl.
    exists (next_rowid (users db)). split; [apply next_rowid_fresh|done].
Qed.

Lemma signup_email_taken_or_created_witness :
  signup demo_hash (schemas.mkUserCreate "a@x.com" "pw123") two_users =
    (inl (HTTPError (mkHTTPException 400 "Email already registered" [])),
     two_users)
  ∧ ∃ id, users two_users !! id = None ∧
      signup demo_hash (schemas.mkUserCreate "c@x.com" "pw123") two_users =
        (inr (schemas.mkUser "c@x.com" id),
         set_users (<[id := models.mkUser "c@x.com" (demo_hash "pw123")]>
                      (users two_users)) two_users).
Proof.
  split.
  - apply (proj1 (signup_email_taken_or_created demo_hash
                    (schemas.mkUserCreate "a@x.com" "pw123") two_users)).
    exists 1, alice.2. split; reflexivity.
  - apply (proj2 (signup_email_taken_or_created demo_hash
                    (schemas.mkUserCreate "c@x.com" "pw123") two_users)).
    refine (bool_decide_unpack _ _). vm_compute. exact I.
Defined.

Example signup_fresh_email :
  signup demo_hash (schemas.mkUserCreate "c@x.com" "pw123") two_users =
    (inr (schemas.mkUser "c@x.com" 3),
     set_users (<[3 := models.mkUser "c@x.com" "$2b$pw123"]> (users two_users))
       two_users).
Proof. vm_compute. reflexivity. Qed.

(** ** Goals *)

Lemma delete_goal_found goal_id (current_user : Z * models.User) db row :
  goals db !! goal_id = Some row →
  models.g_owner_id row = current_user.1 →
  delete_goal goal_id current_user db =
    (inr "Goal deleted",
     set_goals (delete goal_id (goals db))
       (set_subjects
          (query_delete (λ r, models.s_goal_id r.2 = goal_id) (subjects db))
          db)).
Proof.
  intros Hrow Howner. unfold delete_goal.
  rewrite (query_first_key (λ g, models.g_owner_id g = current_user.1)).
  rewrite Hrow, decide_True by done. done.
Qed.

(** What [DELETE /goals/{id}] does remove: the goal, and every subject
    that names it, whoever owns the subject. No chapter is touched. *)
Lemma delete_goal_effect goal_id (current_user : Z * models.User) db row :
  goals db !! goal_id = Some row →
  models.g_owner_id row = current_user.1 →
  let db' := (delete_goal goal_id current_user db).2 in
  goals db' !! goal_id = None
  ∧ (∀ k s, subjects db !! k = Some s → models.s_goal_id s = goal_id →
            subjects db' !! k = None)
  ∧ (∀ k s, subjects db !! k = Some s → models.s_goal_id s ≠ goal_id →
            subjects db' !! k = Some s)
  ∧ chapters db' = chapters db.
Proof.
  intros Hrow Howner. rewrite (delete_goal_found _ _ _ row) by done. simpl.
  split_and!; [apply lookup_delete_eq| | |done].
  - intros k s Hk Hg.
    rewrite (lookup_query_delete (λ r, models.s_goal_id r.2 = goal_id)), Hk.
    by rewrite decide_True.
  - intros k s Hk Hg.
    rewrite (lookup_query_delete (λ r, models.s_goal_id r.2 = goal_id)), Hk.
    by rewrite decide_False.
Qed.

(** C1: the store in which Alice's subject ["s1"] names Bob's goal ["g1"]
    is reached through the API (Bob posts the goal, Alice the subject);
    there Bob's [DELETE /goals/g1] succeeds and Alice's subject is gone:
    the DELETE on [subjects] filters by [goal_id] alone. *)
Theorem delete_goal_deletes_other_owners_subject :
  (create_or_update_subject subject_s1 alice
     (create_goal goal_g1 bob two_users).2).2 = shared_goal_db
  ∧ models.s_owner_id <$> subjects shared_goal_db !! "s1" = Some alice.1
  ∧ (delete_goal "g1" bob shared_goal_db).1 = inr "Goal deleted"
  ∧ subjects (delete_goal "g1" bob shared_goal_db).2 !! "s1" = None.
Proof. vm_compute. split_and!; reflexivity. Qed.

(** C3: Alice deletes her goal ["g1"]: the goal and her subject ["s1"] go,
    the chapter ["c1"] of that subject stays behind. *)
Theorem delete_goal_leaves_chapters :
  (delete_goal "g1" alice alice_study_db).1 = inr "Goal deleted"
  ∧ goals (delete_goal "g1" alice alice_study_db).2 !! "g1" = None
  ∧ subjects (delete_goal "g1" alice alice_study_db).2 !! "s1" = None
  ∧ chapters (delete_goal "g1" alice alice_study_db).2 !! "c1"
    = Some chapter_c1
  ∧ models.c_subject_id chapter_c1 = "s1".
Proof. vm_compute. split_and!; reflexivity. Qed.

(** C4, as stated, fails: Alice posts her goal ["g1"] again with a new
    title; the INSERT is rejected and the stored title is the old one. *)
Lemma create_goal_does_not_overwrite :
  let db := (create_goal goal_g1 alice two_users).2 in
  models.g_owner_id <$> goals db !! "g1" = Some alice.1
  ∧ create_goal goal_g1_retitled alice db = (inl IntegrityError, db)
  ∧ models.g_title <$> goals db !! "g1" = Some "Finals"
  ∧ schemas.gc_title goal_g1_retitled ≠ "Finals".
Proof. vm_compute. split_and!; (reflexivity || discriminate). Qed.

(** C4, amended: [POST /goals] is an insert. When no goal row has the
    supplied id, one row is added under that id, owned by the caller and
    carrying the payload's fields, and it is returned; when some goal row
    has that id, the store rejects the insert and nothing changes. *)
Theorem create_goal_inserts (goal : schemas.GoalCreate)
    (current_user : Z * models.User) (db : DB) :
  let row :=
    models.mkGoal (schemas.gc_title goal) (schemas.gc_type goal)
      (schemas.gc_details goal) current_user.1 in
  (goals db !! schemas.gc_id goal = None →
   create_goal goal current_user db =
     (inr (schemas.mkGoal (schemas.gc_id goal) (schemas.gc_title goal)
             (schemas.gc_type goal) (schemas.gc_details goal) current_user.1),
      set_goals (<[schemas.gc_id goal := row]> (goals db)) db))
  ∧ (is_Some (goals db !! schemas.gc_id goal) →
     create_goal goal current_user db = (inl IntegrityError, db)).
Proof.
  unfold create_goal, sql_insert; simpl. split.
  - intros ->. done.
  - intros [g ->]. done.
Qed.

Lemma create_goal_inserts_witness :
  create_goal goal_g1 bob two_users =
    (inr (schemas.mkGoal "g1" "Finals" "EXAM" JNull 2),
     set_goals (<["g1" := models.mkGoal "Finals" "EXAM" JNull 2]> ∅) two_users).
Proof.
  apply (proj1 (create_goal_inserts goal_g1 bob two_users)). reflexivity.
Defined.

(** ** Subjects *)

Lemma lookup_owned_subject subject_id (current_user : Z * models.User) db :
  query_first
    (λ r, r.1 = subject_id ∧ models.s_owner_id r.2 = current_user.1)
    (subjects db) =
  match subjects db !! subject_id with
  | Some row =>
      if decide (models.s_owner_id row = current_user.1)
      then Some (subject_id, row) else None
  | None => None
  end.
Proof.
  apply (query_first_key (λ s, models.s_owner_id s = current_user.1)).
Qed.

(** The chapters that survive the cascade of [db.delete(subject)]. *)
Lemma lookup_delete_cascade_chapters k db c :
  chapters (delete_cascade_subject k db) !! c =
    match chapters db !! c with
    | Some ch => if decide (models.c_subject_id ch = k) then None else Some ch
    | None => None
    end.
Proof.
  unfold delete_cascade_subject; simpl.
  rewrite lookup_delete_loaded.
  set (P := λ r : string * models.Chapter, models.c_subject_id r.2 = k).
  destruct (chapters db !! c) as [ch|] eqn:Hc.
  - case_decide as Hin; case_decide as Hk; try done.
    + apply list_elem_of_fmap in Hin as ([c' ch'] & Heq & Hin).
      apply (elem_of_query_all P) in Hin as [HP Hc'].
      unfold P in HP. simplify_eq/=.
    + destruct Hin. apply list_elem_of_fmap. exists (c, ch).
      split; [done|]. by apply (elem_of_query_all P).
  - case_decide as Hin; [done|]. done.
Qed.

(** C9: [DELETE /subjects/{id}] answers "Subject not found" (status 404)
    exactly when the caller owns no subject with that id, and then leaves
    every table as it was; otherwise it answers "Subject deleted", the
    subject row is gone, the chapters whose [subject_id] is that id are
    gone, and every other row of every table is as before. *)
Theorem delete_subject_not_found_or_cascade (subject_id : string)
    (current_user : Z * models.User) (db : DB) :
  let out := delete_subject subject_id current_user db in
  (out.1 = inl (not_found "Subject") ↔
     ¬ ∃ row, subjects db !! subject_id = Some row ∧
              models.s_owner_id row = current_user.1)
  ∧ (out.1 = inl (not_found "Subject") → out.2 = db)
  ∧ (out.1 ≠ inl (not_found "Subject") →
     out.1 = inr "Subject deleted"
     ∧ subjects out.2 = delete subject_id (subjects db)
     ∧ (∀ c, chapters out.2 !! c =
          match chapters db !! c with
          | Some ch =>
              if decide (models.c_subject_id ch = subject_id)
              then None else Some ch
          | None => None
          end)
     ∧ users out.2 = users db ∧ goals out.2 = goals db
     ∧ notifications out.2 = notifications db).
Proof.
  unfold delete_subject. rewrite lookup_owned_subject.
  destruct (subjects db !! subject_id) as [row|] eqn:Hrow.
  - case_decide as Howner; simpl.
    + split_and!; [split; [done|]|done|].
      * intros Hno. destruct Hno. eauto.
      * intros _. split_and!; try done.
        apply lookup_delete_cascade_chapters.
    + split_and!; [split; [|done]|done|done].
      intros _ (row' & [= <-] & Hrow'). done.
  - simpl. split_and!; [split; [|done]|done|done].
    intros _ (row' & [=] & _).
Qed.

Lemma delete_subject_not_found_or_cascade_witness :
  (delete_subject "s1" alice alice_study_db).1 = inr "Subject deleted"
  ∧ subjects (delete_subject "s1" alice alice_study_db).2 !! "s1" = None
  ∧ chapters (delete_subject "s1" alice alice_study_db).2 !! "c1" = None
  ∧ delete_subject "s1" bob alice_study_db
    = (inl (not_found "Subject"), alice_study_db).
Proof.
  pose proof (delete_subject_not_found_or_cascade "s1" alice alice_study_db)
    as (_ & _ & Hdel).
  pose proof (delete_subject_not_found_or_cascade "s1" bob alice_study_db)
    as (Hiff & Hsame & _).
  destruct Hdel as (Hok & Hsub & Hch & _); [by vm_compute|].
  split_and!.
  - exact Hok.
  - rewrite Hsub. apply lookup_delete_eq.
  - rewrite Hch. reflexivity.
  - apply injective_projections.
    + apply Hiff. intros (row & Hrow & Howner).
      vm_compute in Hrow. injection Hrow as <-. vm_compute in Howner.
      discriminate.
    + apply Hsame, Hiff. intros (row & Hrow & Howner).
      vm_compute in Hrow. injection Hrow as <-. vm_compute in Howner.
      discriminate.
Defined.


(** ** Notifications *)

Lemma lookup_owned_notification k (current_user : Z * models.User) db :
  query_first
    (λ r, r.1 = k ∧ models.n_owner_id r.2 = current_user.1)
    (notifications db) =
  match notifications db !! k with
  | Some row =>
      if decide (models.n_owner_id row = current_user.1)
      then Some (k, row) else None
  | None => None
  end.
Proof.
  apply (query_first_key (λ n, models.n_owner_id n = current_user.1)).
Qed.

(** One turn of the loop of [sync_notifications]. *)
Lemma sync_loop_step n (current_user : Z * models.User) db sess :
  sync_loop [n] current_user db sess =
    if decide (owned_by current_user.1 (notifications db) (schemas.nc_id n))
    then mkSession
           (<[schemas.nc_id n := notification_data n current_user.1]>
              (dirty sess))
           (new sess)
    else mkSession (dirty sess)
           (new sess ++
              [(schemas.nc_id n, notification_data n current_user.1)]).
Proof.
  simpl. rewrite lookup_owned_notification.
  destruct (decide (owned_by _ _ _)) as [Hown|Hown]; unfold owned_by in Hown;
    destruct (notifications db !! schemas.nc_id n) as [row|]; simpl in *;
    try done.
  - injection Hown as Hown. by rewrite decide_True.
  - rewrite decide_False; [done|]. intros Ho. apply Hown. by rewrite Ho.
Qed.

Lemma sync_loop_app ns1 ns2 (current_user : Z * models.User) db sess :
  sync_loop (ns1 ++ ns2) current_user db sess =
    sync_loop ns2 current_user db (sync_loop ns1 current_user db sess).
Proof.
  revert sess. induction ns1 as [|n ns1 IH]; intros sess; [done|].
  simpl. destruct (query_first _ _); apply IH.
Qed.

Lemma last_write_snoc k ns n :
  last_write k (ns ++ [n]) =
    if decide (schemas.nc_id n = k) then Some n else last_write k ns.
Proof.
  unfold last_write. rewrite filter_app, last_app, filter_cons, filter_nil.
  by case_decide.
Qed.

Lemma last_write_Some k ns n :
  last_write k ns = Some n → n ∈ ns ∧ schemas.nc_id n = k.
Proof.
  unfold last_write. intros Hlast%last_Some_elem_of.
  by apply list_elem_of_filter in Hlast as [? ?].
Qed.

Lemma last_write_None k ns :
  last_write k ns = None ↔ k ∉ schemas.nc_id <$> ns.
Proof.
  unfold last_write. rewrite last_None. split.
  - intros Hnil (n & -> & Hin)%list_elem_of_fmap.
    by eapply filter_nil_not_elem_of.
  - intros Hnin. destruct (filter _ ns) as [|n l] eqn:E; [done|].
    assert (n ∈ filter (λ n, schemas.nc_id n = k) ns) as Hin
      by (rewrite E; apply list_elem_of_here).
    apply list_elem_of_filter in Hin as [<- Hin].
    destruct Hnin. apply list_elem_of_fmap. eauto.
Qed.

(** What the session holds when the loop is over. *)
Lemma sync_loop_session ns (current_user : Z * models.User) db :
  let sess := sync_loop ns current_user db (mkSession ∅ []) in
  let t := notifications db in
  (∀ k, dirty sess !! k =
          if decide (owned_by current_user.1 t k)
          then (λ n, notification_data n current_user.1) <$> last_write k ns
          else None)
  ∧ new sess =
      (λ n, (schemas.nc_id n, notification_data n current_user.1)) <$>
        filter (λ n, ¬ owned_by current_user.1 t (schemas.nc_id n)) ns.
Proof.
  induction ns as [|n ns IH] using rev_ind; simpl.
  - split; [|done]. intros k. rewrite lookup_empty. by case_decide.
  - destruct IH as [IHd IHn].
    rewrite sync_loop_app, sync_loop_step. split.
    + intros k. rewrite last_write_snoc.
      destruct (decide (owned_by _ _ (schemas.nc_id n))) as [Hown|Hown]; simpl.
      * rewrite lookup_insert, IHd.
        destruct (decide (schemas.nc_id n = k)) as [<-|Hne]; [|done].
        by rewrite decide_True.
      * rewrite IHd. case_decide as Hk; [|done].
        rewrite decide_False; [done|]. by intros <-.
    + rewrite filter_app, fmap_app, filter_cons, filter_nil.
      destruct (decide (owned_by _ _ (schemas.nc_id n))) as [Hown|Hown]; simpl.
      * rewrite decide_False by tauto. simpl.
        by rewrite (right_id_L [] (++)), IHn.
      * rewrite decide_True by done. simpl. by rewrite IHn.
Qed.

Lemma flush_dirty_None {V : Type} (d t : gmap string V) k :
  map_fold sql_update t d !! k = None ↔ t !! k = None.
Proof.
  rewrite lookup_flush_dirty.
  destruct (d !! k), (t !! k); simpl; naive_solver.
Qed.

Lemma owned_by_lookup owner (t : gmap string models.Notification) k :
  owned_by owner t k ↔ ∃ row, t !! k = Some row ∧ models.n_owner_id row = owner.
Proof.
  unfold owned_by. destruct (t !! k) as [row|]; simpl; naive_solver.
Qed.

(** [commit] at the end of [sync_notifications]: it goes through exactly
    for the admissible batches, and then each id of the batch holds the
    data of the last element that carries it, every other row being as
    before. *)
Lemma sync_commit_spec ns (current_user : Z * models.User) db :
  let t := notifications db in
  match commit_session (sync_loop ns current_user db (mkSession ∅ [])) t with
  | Some t' =>
      sync_admissible current_user.1 ns t
      ∧ ∀ k, t' !! k =
               match last_write k ns with
               | Some n => Some (notification_data n current_user.1)
               | None => t !! k
               end
  | None => ¬ sync_admissible current_user.1 ns t
  end.
Proof.
  intros t. unfold commit_session, sync_admissible.
  destruct (sync_loop_session ns current_user db) as [Hd Hn]. fold t in Hd, Hn.
  set (sess := sync_loop ns current_user db (mkSession ∅ [])) in *.
  set (pending := λ n, ¬ owned_by current_user.1 t (schemas.nc_id n)) in *.
  assert ((new sess).*1 = schemas.nc_id <$> filter pending ns) as Hkeys.
  { rewrite Hn, <-list_fmap_compose. done. }
  destruct (flush_new _ _) as [t'|] eqn:E.
  - apply flush_new_Some in E as (Hnd & Hfree & ->).
    assert (∀ n, n ∈ ns → pending n → t !! schemas.nc_id n = None) as Hnew.
    { intros n Hin Hp. apply (flush_dirty_None (dirty sess)), Hfree.
      rewrite Hkeys. apply list_elem_of_fmap. exists n. split; [done|].
      by apply list_elem_of_filter. }
    split; [split|].
    + apply Forall_forall. intros n Hin.
      destruct (t !! schemas.nc_id n) as [row|] eqn:Hrow; simpl; [|done].
      destruct (decide (pending n)) as [Hp|Hp].
      * rewrite (Hnew n Hin Hp) in Hrow. done.
      * apply dec_stable in Hp. apply owned_by_lookup in Hp as (? & ? & ?).
        congruence.
    + by rewrite <-Hkeys.
    + intros k. destruct (decide (owned_by current_user.1 t k)) as [Hown|Hown].
      * assert ((list_to_map (new sess) : gmap string models.Notification) !! k
                = None) as Hnone.
        { apply not_elem_of_list_to_map_1. rewrite Hkeys.
          intros (n & -> & [Hp _]%list_elem_of_filter)%list_elem_of_fmap.
          done. }
        rewrite lookup_union_r by done.
        rewrite lookup_flush_dirty, Hd, decide_True by done.
        apply owned_by_lookup in Hown as (row & -> & _).
        by destruct (last_write k ns).
      * destruct (last_write k ns) as [n|] eqn:Hlast.
        -- apply last_write_Some in Hlast as [Hin <-].
           apply lookup_union_Some_l, elem_of_list_to_map_1; [done|].
           rewrite Hn. apply list_elem_of_fmap. exists n. split; [done|].
           by apply list_elem_of_filter.
        -- apply last_write_None in Hlast.
           rewrite lookup_union_r.
           ++ by rewrite lookup_flush_dirty, Hd, decide_False.
           ++ apply not_elem_of_list_to_map_1. rewrite Hkeys.
              intros (n & -> & [_ Hin]%list_elem_of_filter)%list_elem_of_fmap.
              apply Hlast, list_elem_of_fmap. eauto.
  - intros [Hall Hnd].
    assert (flush_new (new sess) (map_fold sql_update t (dirty sess))
            = Some (list_to_map (new sess)
                      ∪ map_fold sql_update t (dirty sess))) as Hok; [|congruence].
    apply flush_new_Some. split_and!; [by rewrite Hkeys| |done].
    intros k. rewrite Hkeys.
    intros (n & -> & [Hp Hin]%list_elem_of_filter)%list_elem_of_fmap.
    apply flush_dirty_None.
    rewrite Forall_forall in Hall. specialize (Hall n Hin).
    destruct (t !! schemas.nc_id n) as [row|] eqn:Hrow; [|done].
    destruct Hp. apply owned_by_lookup. eauto.
Qed.

Lemma lookup_spec_syncMany owner ns (t : gmap string models.Notification) k :
  Forall
    (λ n, from_option (λ row, models.n_owner_id row = owner) True
            (t !! schemas.nc_id n)) ns →
  spec_syncMany owner ns t !! k =
    match last_write k ns with
    | Some n => Some (notification_data n owner)
    | None => t !! k
    end.
Proof.
  unfold spec_syncMany. revert k.
  induction ns as [|n ns IH] using rev_ind; intros k Hall; [done|].
  apply Forall_app in Hall as [Hns [Hn _]%Forall_cons].
  rewrite foldl_snoc, last_write_snoc.
  assert (spec_upsert owner n (foldl (λ t n, spec_upsert owner n t) t ns)
          = <[schemas.nc_id n := notification_data n owner]>
              (foldl (λ t n, spec_upsert owner n t) t ns)) as ->.
  { unfold spec_upsert. rewrite (IH _ Hns).
    destruct (last_write (schemas.nc_id n) ns) as [n'|].
    - by rewrite decide_True.
    - destruct (t !! schemas.nc_id n) as [row|]; simpl in *; [|done].
      by rewrite decide_True. }
  rewrite lookup_insert. case_decide; [done|]. by apply IH.
Qed.

Lemma elem_of_db_notifs (current_user : Z * models.User) db r :
  r ∈ db_notifs current_user db ↔
    notifications db !! r.1 = Some r.2 ∧
    models.n_owner_id r.2 = current_user.1.
Proof.
  unfold db_notifs.
  rewrite (elem_of_query_all (λ r, models.n_owner_id r.2 = current_user.1)).
  tauto.
Qed.

(** Case split on the commit of a batch, with what [sync_commit_spec] says
    in each case. *)
Ltac commit_cases ns current_user db H t' :=
  pose proof (sync_commit_spec ns current_user db) as H; simpl in H;
  destruct (commit_session _ _) as [t'|].

(** [POST /notifications/sync], case by case. *)
Lemma sync_notifications_outcome (ns : list schemas.NotificationCreate)
    (current_user : Z * models.User) (db : DB) :
  sync_notifications ns current_user db =
    if decide (sync_admissible current_user.1 ns (notifications db))
    then read_notifications current_user
           (set_notifications
              (spec_syncMany current_user.1 ns (notifications db)) db)
    else (inl IntegrityError, db).
Proof.
  unfold sync_notifications. commit_cases ns current_user db Hcommit t'.
  - destruct Hcommit as [Hadm Ht']. rewrite decide_True by done.
    assert (t' = spec_syncMany current_user.1 ns (notifications db)) as ->;
      [|done].
    apply map_eq. intros k.
    rewrite Ht', lookup_spec_syncMany; [done|apply Hadm].
  - by rewrite decide_False.
Qed.




(** ** Upsert and ownership *)

(** [POST /subjects], case by case. The response model is built without
    its required [owner_id], so the request fails even when the row has
    been committed. *)
Lemma create_or_update_subject_outcome (subject : schemas.SubjectCreate)
    (current_user : Z * models.User) (db : DB) :
  let written :=
    set_subjects
      (<[schemas.sc_id subject := subject_data subject current_user.1]>
         (subjects db)) db in
  create_or_update_subject subject current_user db =
    match subjects db !! schemas.sc_id subject with
    | Some row =>
        if decide (models.s_owner_id row = current_user.1)
        then (inl ValidationError, written)
        else (inl IntegrityError, db)
    | None => (inl ValidationError, written)
    end.
Proof.
  unfold create_or_update_subject. rewrite lookup_owned_subject.
  unfold sql_insert.
  destruct (subjects db !! schemas.sc_id subject) as [row|] eqn:Hrow;
    [|done].
  case_decide; simpl; [|done].
  rewrite sql_update_insert by eauto. done.
Qed.

Lemma sync_notifications_store ns (current_user : Z * models.User) db :
  notifications (sync_notifications ns current_user db).2 =
    default (notifications db)
      (commit_session (sync_loop ns current_user db (mkSession ∅ []))
         (notifications db)).
Proof.
  unfold sync_notifications. by destruct (commit_session _ _).
Qed.

(** C2: an upsert whose id is held by a row of another owner finds no row
    for the caller, creates none (the store rejects the INSERT and is left
    as it was); and no upsert, whatever its payload, changes the owner of
    a row that exists. Both for [POST /subjects] and for
    [POST /notifications/sync]. *)
Theorem upsert_never_changes_owner (current_user : Z * models.User) (db : DB) :
  (∀ subject row,
     subjects db !! schemas.sc_id subject = Some row →
     models.s_owner_id row ≠ current_user.1 →
     query_first
       (λ r, r.1 = schemas.sc_id subject ∧
             models.s_owner_id r.2 = current_user.1) (subjects db) = None
     ∧ create_or_update_subject subject current_user db
       = (inl IntegrityError, db))
  ∧ (∀ ns n row,
       n ∈ ns →
       notifications db !! schemas.nc_id n = Some row →
       models.n_owner_id row ≠ current_user.1 →
       query_first
         (λ r, r.1 = schemas.nc_id n ∧
               models.n_owner_id r.2 = current_user.1) (notifications db)
         = None
       ∧ sync_notifications ns current_user db = (inl IntegrityError, db))
  ∧ (∀ subject k row,
       subjects db !! k = Some row →
       models.s_owner_id <$>
         subjects (create_or_update_subject subject current_user db).2 !! k
       = Some (models.s_owner_id row))
  ∧ (∀ ns k row,
       notifications db !! k = Some row →
       models.n_owner_id <$>
         notifications (sync_notifications ns current_user db).2 !! k
       = Some (models.n_owner_id row)).
Proof.
  split_and!.
  - intros subject row Hrow Hne.
    rewrite create_or_update_subject_outcome, lookup_owned_subject, Hrow.
    rewrite !decide_False by done. done.
  - intros ns n row Hin Hrow Hne.
    rewrite lookup_owned_notification, Hrow, decide_False by done.
    split; [done|].
    rewrite sync_notifications_outcome, decide_False; [done|].
    intros [Hall _]. rewrite Forall_forall in Hall.
    specialize (Hall n Hin). rewrite Hrow in Hall. done.
  - intros subject k row Hrow.
    rewrite create_or_update_subject_outcome.
    destruct (subjects db !! schemas.sc_id subject) as [row'|] eqn:Hrow';
      [case_decide as Hown|]; simpl; rewrite ?Hrow; try done.
    + rewrite lookup_insert. case_decide; subst; [|by rewrite Hrow].
      simpl. congruence.
    + rewrite lookup_insert_ne by congruence. by rewrite Hrow.
  - intros ns k row Hrow. rewrite sync_notifications_store.
    commit_cases ns current_user db Hcommit t'; simpl; [|by rewrite Hrow].
    destruct Hcommit as [[Hall _] ->].
    destruct (last_write k ns) as [n|] eqn:Hlast; [|by rewrite Hrow].
    apply last_write_Some in Hlast as [Hin <-].
    rewrite Forall_forall in Hall. specialize (Hall n Hin).
    rewrite Hrow in Hall. simpl in *. by rewrite Hall.
Qed.

Lemma upsert_never_changes_owner_witness :
  create_or_update_subject subject_s1 bob alice_subject_db
    = (inl IntegrityError, alice_subject_db)
  ∧ models.s_owner_id <$>
      subjects (create_or_update_subject subject_s1 bob alice_subject_db).2
        !! "s1"
    = Some alice.1.
Proof.
  destruct (upsert_never_changes_owner bob alice_subject_db)
    as (Hsubj & _ & Hkeep & _).
  split.
  - apply (Hsubj subject_s1 (subject_data subject_s1 alice.1));
      [reflexivity|discriminate].
  - apply (Hkeep subject_s1 "s1" (subject_data subject_s1 alice.1)).
    reflexivity.
Defined.

(** C10: a row that [POST /goals], [POST /subjects] or
    [POST /notifications/sync] leaves in its table and that was not there
    before, or not with these values, carries the caller's id as its
    owner, whatever the payload. (The payload records have no owner
    field.) *)
Theorem written_rows_belong_to_caller (current_user : Z * models.User)
    (db : DB) :
  (∀ goal k row,
     goals (create_goal goal current_user db).2 !! k = Some row →
     goals db !! k ≠ Some row →
     models.g_owner_id row = current_user.1)
  ∧ (∀ subject k row,
       subjects (create_or_update_subject subject current_user db).2 !! k
         = Some row →
       subjects db !! k ≠ Some row →
       models.s_owner_id row = current_user.1)
  ∧ (∀ ns k row,
       notifications (sync_notifications ns current_user db).2 !! k
         = Some row →
       notifications db !! k ≠ Some row →
       models.n_owner_id row = current_user.1).
Proof.
  split_and!.
  - intros goal k row. unfold create_goal, sql_insert; simpl.
    destruct (goals db !! schemas.gc_id goal); simpl; [done|].
    rewrite lookup_insert. case_decide; [|done]. by intros [= <-].
  - intros subject k row. rewrite create_or_update_subject_outcome.
    destruct (subjects db !! schemas.sc_id subject) as [row'|];
      [case_decide|]; simpl; try done;
      rewrite lookup_insert; (case_decide; [|done]); by intros [= <-].
  - intros ns k row. rewrite sync_notifications_store.
    commit_cases ns current_user db Hcommit t'; simpl; [|done].
    destruct Hcommit as [_ ->].
    destruct (last_write k ns) as [n|]; [|done]. by intros [= <-].
Qed.

Lemma written_rows_belong_to_caller_witness :
  models.g_owner_id <$> goals (create_goal goal_g1 bob two_users).2 !! "g1"
  = Some bob.1.
Proof.
  destruct (goals (create_goal goal_g1 bob two_users).2 !! "g1")
    as [row|] eqn:Hrow; [|by vm_compute in Hrow].
  simpl. f_equal.
  apply (proj1 (written_rows_belong_to_caller bob two_users) goal_g1 "g1" row);
    [exact Hrow|discriminate].
Defined.




(** ** What the list endpoints answer *)

(** Every call of [schemas.Subject(...)] and [schemas.Notification(...)]
    in [main.py] leaves out the required [owner_id], so a comprehension
    over at least one row raises. *)
Lemma collect_subject_schema l :
  collect subject_schema l =
    match l with [] => inr [] | _ :: _ => inl ValidationError end.
Proof. by destruct l. Qed.

Lemma collect_notification_schema l :
  collect notification_schema l =
    match l with [] => inr [] | _ :: _ => inl ValidationError end.
Proof. by destruct l. Qed.

Lemma read_notifications_answer (current_user : Z * models.User) db :
  read_notifications current_user db =
    (match db_notifs current_user db with
     | [] => inr []
     | _ :: _ => inl ValidationError
     end, db).
Proof. unfold read_notifications. by rewrite collect_notification_schema. Qed.

(** The two-notification scenario: both rows are stored for Alice, and
    stay two after the resync; the answer itself is the failure above. *)
Example sync_two_then_resync :
  let db1 :=
    (sync_notifications [notif "n1" "PENDING"; notif "n2" "COMPLETED"]
       alice two_users).2 in
  let out := sync_notifications [notif "n1" "COMPLETED"] alice db1 in
  notifications db1 =
    <["n1" := notification_data (notif "n1" "PENDING") 1]>
      {[ "n2" := notification_data (notif "n2" "COMPLETED") 1 ]}
  ∧ notifications out.2 =
      <["n1" := notification_data (notif "n1" "COMPLETED") 1]>
        {[ "n2" := notification_data (notif "n2" "COMPLETED") 1 ]}
  ∧ length (db_notifs alice out.2) = 2%nat
  ∧ out.1 = inl ValidationError.
Proof. vm_compute. split_and!; reflexivity. Qed.

(** The subject scenario: Alice's subject is stored; Bob lists nothing. *)
Example post_subject_then_list :
  let db1 := (create_or_update_subject subject_s1 alice two_users).2 in
  db1 = alice_subject_db
  ∧ query_all (λ r, models.s_owner_id r.2 = alice.1) (subjects db1)
    = [("s1", subject_data subject_s1 1)]
  ∧ read_subjects bob db1 = (inr [], db1).
Proof. vm_compute. split_and!; reflexivity. Qed.

(** * Further properties of the handlers *)

(** ** Login and the path from signup to an authenticated request *)

(** A query that only one row satisfies returns that row. *)
Lemma query_first_unique {K V : Type} `{Countable K} (P : K * V → Prop)
    `{∀ r, Decision (P r)} (t : gmap K V) (r : K * V) :
  t !! r.1 = Some r.2 → P r →
  (∀ k v, t !! k = Some v → P (k, v) → (k, v) = r) →
  query_first P t = Some r.
Proof.
  intros Hr HP Honly.
  destruct (query_first P t) as [[k v]|] eqn:E.
  - apply (query_first_Some P) in E as [HP' Hk]. f_equal. by apply Honly.
  - rewrite (query_first_None P) in E. destruct r as [k v]. by destruct (E k v).
Qed.

(** X1: [POST /token] answers the same 401 "Incorrect email or password"
    and leaves the store alone whenever no stored row with the given email
    verifies the password, be it that no row has the email or that the
    password is wrong. *)
Theorem login_failure_uniform (verify_password : string → string → bool)
    (create_access_token : gmap string Json → string)
    (username password : string) (db : DB) :
  map_Forall
    (λ _ u, models.email u = username →
            verify_password password (models.hashed_password u) = false)
    (users db) →
  login_for_access_token verify_password create_access_token
    username password db
  = (inl (HTTPError incorrect_login), db).
Proof.
  intros Hno. unfold login_for_access_token.
  destruct (query_first _ (users db)) as [[id u]|] eqn:E; [|done].
  apply query_first_Some in E as [Hmail Hid]; simpl in *.
  by rewrite (Hno id u Hid Hmail).
Qed.

Lemma login_failure_uniform_witness :
  login_for_access_token demo_verify demo_create_access_token
    "nobody@x.com" "a" two_users
  = (inl (HTTPError incorrect_login), two_users)
  ∧ login_for_access_token demo_verify demo_create_access_token
      "a@x.com" "wrong" two_users
    = (inl (HTTPError incorrect_login), two_users).
Proof.
  split; apply login_failure_uniform;
    refine (bool_decide_unpack _ _); vm_compute; exact I.
Defined.

(** The same endpoint lets the stored password in. *)
Example login_alice :
  login_for_access_token demo_verify demo_create_access_token
    "a@x.com" "a" two_users
  = (inr (mkToken "jwt:a@x.com" "bearer"), two_users).
Proof. vm_compute. reflexivity. Qed.

(** X2: signup, login, first authenticated request. Provided the password
    verifies against its own hash and the token issued for an email
    decodes to a payload whose ["sub"] is that email, a signup with an
    unused email is followed by a login that returns a bearer token, and
    that token resolves to the user row the signup created. *)
Theorem signup_login_resolve
    (get_password_hash : string → string)
    (verify_password : string → string → bool)
    (create_access_token : gmap string Json → string)
    (jwt_decode : string → option (gmap string Json))
    (user : schemas.UserCreate) (db : DB) :
  let email := schemas.uc_email user in
  let password := schemas.uc_password user in
  verify_password password (get_password_hash password) = true →
  (∃ payload,
     jwt_decode (create_access_token {[ "sub" := JStr email ]}) = Some payload
     ∧ payload !! "sub" = Some (JStr email)) →
  map_Forall (λ _ u, models.email u ≠ email) (users db) →
  ∃ id token,
    let db1 := (signup get_password_hash user db).2 in
    (signup get_password_hash user db).1 = inr (schemas.mkUser email id)
    ∧ login_for_access_token verify_password create_access_token
        email password db1
      = (inr (mkToken token "bearer"), db1)
    ∧ get_current_user jwt_decode db1 token
      = inr (id, models.mkUser email (get_password_hash password)).
Proof.
  intros email password Hverify (payload & Hdecode & Hsub) Hfree.
  set (row := models.mkUser email (get_password_hash password)).
  assert (query_first
            (λ r : Z * models.User, models.email r.2 = email) (users db)
          = None) as Hq.
  { apply query_first_None. intros k v Hk. by apply (Hfree k v). }
  assert (signup get_password_hash user db
          = (inr (schemas.mkUser email (next_rowid (users db))),
             set_users (<[next_rowid (users db) := row]> (users db)) db))
    as Hsignup.
  { unfold signup. fold email. rewrite Hq. unfold insert_user; simpl.
    fold email. rewrite Hq. unfold sql_insert.
    by rewrite next_rowid_fresh. }
  exists (next_rowid (users db)),
    (create_access_token {[ "sub" := JStr email ]}).
  rewrite Hsignup. simpl.
  assert (query_first
            (λ r : Z * models.User, models.email r.2 = email)
            (<[next_rowid (users db) := row]> (users db))
          = Some (next_rowid (users db), row)) as Hfound.
  { apply (query_first_unique
             (λ r : Z * models.User, models.email r.2 = email)); simpl.
    - apply lookup_insert_eq.
    - done.
    - intros k v Hk Hmail. rewrite lookup_insert in Hk.
      case_decide; simplify_eq/=; [done|]. by destruct (Hfree k v). }
  split_and!; [done| |].
  - unfold login_for_access_token; simpl. rewrite Hfound. simpl.
    fold password. by rewrite Hverify.
  - unfold get_current_user; simpl. rewrite Hdecode, Hsub, Hfound. done.
Qed.

Lemma signup_login_resolve_witness :
  ∃ id token,
    let user := schemas.mkUserCreate "c@x.com" "pw123" in
    let db1 := (signup demo_hash user two_users).2 in
    (signup demo_hash user two_users).1 = inr (schemas.mkUser "c@x.com" id)
    ∧ login_for_access_token demo_verify demo_create_access_token
        "c@x.com" "pw123" db1
      = (inr (mkToken token "bearer"), db1)
    ∧ get_current_user demo_decode db1 token
      = inr (id, models.mkUser "c@x.com" (demo_hash "pw123")).
Proof.
  apply (signup_login_resolve demo_hash demo_verify demo_create_access_token
           demo_decode (schemas.mkUserCreate "c@x.com" "pw123") two_users).
  - reflexivity.
  - eexists. split; reflexivity.
  - refine (bool_decide_unpack _ _). vm_compute. exact I.
Defined.

(** X3: signup keeps every stored user row as it is, and keeps emails
    unique among the rows. *)
Theorem signup_keeps_users (get_password_hash : string → string)
    (user : schemas.UserCreate) (db : DB) :
  emails_unique (users db) →
  users db ⊆ users (signup get_password_hash user db).2
  ∧ emails_unique (users (signup get_password_hash user db).2).
Proof.
  intros Huniq. unfold signup.
  destruct (query_first _ (users db)) as [found|] eqn:Hq; [done|].
  unfold insert_user; simpl. rewrite Hq. unfold sql_insert.
  rewrite next_rowid_fresh. simpl.
  rewrite query_first_None in Hq. split.
  - apply insert_subseteq, next_rowid_fresh.
  - intros i j u v Hi Hj Hmail.
    destruct (decide (i = next_rowid (users db))) as [->|Hi'];
      destruct (decide (j = next_rowid (users db))) as [->|Hj']; [done|..].
    + rewrite lookup_insert_eq in Hi. rewrite lookup_insert_ne in Hj by done.
      injection Hi as <-. by destruct (Hq j v).
    + rewrite lookup_insert_eq in Hj. rewrite lookup_insert_ne in Hi by done.
      injection Hj as <-. by destruct (Hq i u).
    + rewrite lookup_insert_ne in Hi, Hj by done. by apply (Huniq i j u v).
Qed.

Lemma signup_keeps_users_witness :
  users two_users
    ⊆ users (signup demo_hash (schemas.mkUserCreate "c@x.com" "pw123")
               two_users).2
  ∧ emails_unique
      (users (signup demo_hash (schemas.mkUserCreate "c@x.com" "pw123")
                two_users).2).
Proof.
  apply signup_keeps_users.
  intros i j u v Hi Hj Hmail. unfold two_users in Hi, Hj. simpl in Hi, Hj.
  rewrite !lookup_insert, lookup_empty in Hi, Hj.
  repeat case_decide; simplify_eq/=; done.
Defined.

(** X4: the user [get_current_user] returns is a stored row whose email is
    the ["sub"] of the decoded token; and, emails being unique, a token
    whose ["sub"] is the email of a stored row resolves to that row. *)
Theorem get_current_user_resolves_stored_user
    (jwt_decode : string → option (gmap string Json))
    (db : DB) (token : string) (id : Z) (u : models.User) :
  (get_current_user jwt_decode db token = inr (id, u) →
   users db !! id = Some u
   ∧ ∃ payload, jwt_decode token = Some payload
       ∧ payload !! "sub" = Some (JStr (models.email u)))
  ∧ (emails_unique (users db) →
     users db !! id = Some u →
     (∃ payload, jwt_decode token = Some payload
        ∧ payload !! "sub" = Some (JStr (models.email u))) →
     get_current_user jwt_decode db token = inr (id, u)).
Proof.
  unfold get_current_user. split.
  - destruct (jwt_decode token) as [payload|]; [|done].
    destruct (payload !! "sub") as [[| | | |email| |]|] eqn:Hsub; try done.
    destruct (query_first _ (users db)) as [found|] eqn:E; [|done].
    intros [= ->]. apply query_first_Some in E as [Hmail Hid]; simpl in *.
    split; [done|]. exists payload. by rewrite Hmail.
  - intros Huniq Hid (payload & -> & ->).
    rewrite (query_first_unique
               (λ r : Z * models.User, models.email r.2 = models.email u)
               (users db) (id, u)); try done.
    intros k v Hk Hmail; simpl in *. f_equal.
    + by apply (Huniq k id v u).
    + assert (k = id) as -> by by apply (Huniq k id v u). congruence.
Qed.

Lemma get_current_user_resolves_stored_user_witness :
  users two_users !! 1 = Some alice.2
  ∧ ∃ payload, demo_jwt_decode "token-alice" = Some payload
      ∧ payload !! "sub" = Some (JStr "a@x.com").
Proof.
  apply (proj1 (get_current_user_resolves_stored_user demo_jwt_decode
                  two_users "token-alice" 1 alice.2)).
  vm_compute. reflexivity.
Defined.

(** ** The list endpoints *)

Lemma NoDup_query_all_keys {K V : Type} `{Countable K} (P : K * V → Prop)
    `{∀ r, Decision (P r)} (t : gmap K V) :
  NoDup (query_all P t).*1.
Proof.
  eapply sublist_NoDup; [apply (NoDup_fst_map_to_list t)|].
  apply fmap_sublist, sublist_filter.
Qed.

(** X5: [GET /goals] never fails and never writes; it lists each goal of
    the caller once, with the stored values, and no goal of anyone else. *)
Theorem read_goals_lists_own_goals (current_user : Z * models.User)
    (db : DB) :
  ∃ gs, read_goals current_user db = (inr gs, db)
    ∧ NoDup (schemas.g_id <$> gs)
    ∧ ∀ g, g ∈ gs ↔
        schemas.g_owner_id g = current_user.1
        ∧ goals db !! schemas.g_id g
          = Some (models.mkGoal (schemas.g_title g) (schemas.g_type g)
                    (schemas.g_details g) (schemas.g_owner_id g)).
Proof.
  unfold read_goals.
  set (P := λ r : string * models.Goal, models.g_owner_id r.2 = current_user.1).
  exists (goal_from_orm <$> query_all P (goals db)).
  split_and!; [done| |].
  - rewrite <-list_fmap_compose.
    apply (NoDup_query_all_keys P).
  - intros g. rewrite list_elem_of_fmap. split.
    + intros ([k row] & -> & [HP Hk]%(elem_of_query_all P)).
      unfold P in HP. simpl in *. split; [done|]. by destruct row.
    + intros [Hown Hk].
      exists (schemas.g_id g,
              models.mkGoal (schemas.g_title g) (schemas.g_type g)
                (schemas.g_details g) (schemas.g_owner_id g)).
      split; [by destruct g|].
      apply (elem_of_query_all P). by split.
Qed.

Example read_goals_after_post :
  read_goals bob (create_goal goal_g1 bob two_users).2
    = (inr [schemas.mkGoal "g1" "Finals" "EXAM" JNull 2],
       (create_goal goal_g1 bob two_users).2)
  ∧ (read_goals alice (create_goal goal_g1 bob two_users).2).1 = inr [].
Proof. vm_compute. split; reflexivity. Qed.

(** X6: [GET /subjects] and [GET /notifications] never write. Each answers
    the empty list when the caller owns no row, and fails on building its
    response model as soon as the caller owns one. *)
Theorem list_endpoints_empty_or_failing (current_user : Z * models.User)
    (db : DB) :
  (map_Forall (λ _ s, models.s_owner_id s ≠ current_user.1) (subjects db) →
   read_subjects current_user db = (inr [], db))
  ∧ ((∃ k s, subjects db !! k = Some s ∧
             models.s_owner_id s = current_user.1) →
     read_subjects current_user db = (inl ValidationError, db))
  ∧ (map_Forall (λ _ n, models.n_owner_id n ≠ current_user.1)
       (notifications db) →
     read_notifications current_user db = (inr [], db))
  ∧ ((∃ k n, notifications db !! k = Some n ∧
             models.n_owner_id n = current_user.1) →
     read_notifications current_user db = (inl ValidationError, db)).
Proof.
  unfold read_subjects, read_notifications, db_notifs.
  rewrite collect_subject_schema, collect_notification_schema.
  set (Ps := λ r : string * models.Subject,
               models.s_owner_id r.2 = current_user.1).
  set (Pn := λ r : string * models.Notification,
               models.n_owner_id r.2 = current_user.1).
  split_and!.
  - intros Hnone. destruct (query_all Ps (subjects db)) as [|[k s] l] eqn:E;
      [done|].
    assert ((k, s) ∈ query_all Ps (subjects db)) as Hin
      by (rewrite E; apply list_elem_of_here).
    apply (elem_of_query_all Ps) in Hin as [HP Hk]. by destruct (Hnone k s).
  - intros (k & s & Hk & Hown).
    destruct (query_all Ps (subjects db)) as [|r l] eqn:E; [|done].
    assert ((k, s) ∈ query_all Ps (subjects db)) as Hin
      by by apply (elem_of_query_all Ps).
    rewrite E in Hin. by apply not_elem_of_nil in Hin.
  - intros Hnone.
    destruct (query_all Pn (notifications db)) as [|[k n] l] eqn:E; [done|].
    assert ((k, n) ∈ query_all Pn (notifications db)) as Hin
      by (rewrite E; apply list_elem_of_here).
    apply (elem_of_query_all Pn) in Hin as [HP Hk]. by destruct (Hnone k n).
  - intros (k & n & Hk & Hown).
    destruct (query_all Pn (notifications db)) as [|r l] eqn:E; [|done].
    assert ((k, n) ∈ query_all Pn (notifications db)) as Hin
      by by apply (elem_of_query_all Pn).
    rewrite E in Hin. by apply not_elem_of_nil in Hin.
Qed.

Lemma list_endpoints_empty_or_failing_witness :
  read_subjects bob alice_subject_db = (inr [], alice_subject_db)
  ∧ read_subjects alice alice_subject_db
    = (inl ValidationError, alice_subject_db).
Proof.
  split.
  - apply (list_endpoints_empty_or_failing bob alice_subject_db).
    refine (bool_decide_unpack _ _). vm_compute. exact I.
  - apply (list_endpoints_empty_or_failing alice alice_subject_db).
    exists "s1", (subject_data subject_s1 alice.1). split; reflexivity.
Defined.

(** ** Deleting a goal *)

Lemma lookup_owned_goal goal_id (current_user : Z * models.User) db :
  query_first
    (λ r, r.1 = goal_id ∧ models.g_owner_id r.2 = current_user.1)
    (goals db) =
  match goals db !! goal_id with
  | Some row =>
      if decide (models.g_owner_id row = current_user.1)
      then Some (goal_id, row) else None
  | None => None
  end.
Proof.
  apply (query_first_key (λ g, models.g_owner_id g = current_user.1)).
Qed.

(** X7: [DELETE /goals/{id}] answers "Goal not found" (status 404) exactly
    when the caller owns no goal with that id, a goal of somebody else
    included, and then writes nothing; otherwise it answers "Goal deleted"
    and the goals table loses that one row; users, chapters and
    notifications are never written. *)
Theorem delete_goal_not_found_or_deleted (goal_id : string)
    (current_user : Z * models.User) (db : DB) :
  let out := delete_goal goal_id current_user db in
  (out.1 = inl (not_found "Goal") ↔
     ¬ ∃ row, goals db !! goal_id = Some row ∧
              models.g_owner_id row = current_user.1)
  ∧ (out.1 = inl (not_found "Goal") → out.2 = db)
  ∧ (out.1 ≠ inl (not_found "Goal") →
     out.1 = inr "Goal deleted"
     ∧ goals out.2 = delete goal_id (goals db))
  ∧ users out.2 = users db ∧ chapters out.2 = chapters db
  ∧ notifications out.2 = notifications db.
Proof.
  unfold delete_goal. rewrite lookup_owned_goal.
  destruct (goals db !! goal_id) as [row|] eqn:Hrow.
  - case_decide as Howner; simpl.
    + split_and!; try done. split; [done|]. intros Hno. destruct Hno. eauto.
    + split_and!; try done. split; [|done].
      intros _ (row' & [= <-] & Hrow'). done.
  - simpl. split_and!; try done. split; [|done].
    intros _ (row' & [=] & _).
Qed.

Lemma delete_goal_not_found_or_deleted_witness :
  delete_goal "g1" alice shared_goal_db
    = (inl (not_found "Goal"), shared_goal_db)
  ∧ delete_goal "g9" bob shared_goal_db
    = (inl (not_found "Goal"), shared_goal_db).
Proof.
  pose proof (delete_goal_not_found_or_deleted "g1" alice shared_goal_db)
    as (Hiff1 & Hsame1 & _).
  pose proof (delete_goal_not_found_or_deleted "g9" bob shared_goal_db)
    as (Hiff2 & Hsame2 & _).
  assert ((delete_goal "g1" alice shared_goal_db).1 = inl (not_found "Goal"))
    as H1.
  { apply Hiff1. intros (row & Hrow & Howner).
    vm_compute in Hrow. injection Hrow as <-. vm_compute in Howner.
    discriminate. }
  assert ((delete_goal "g9" bob shared_goal_db).1 = inl (not_found "Goal"))
    as H2.
  { apply Hiff2. intros (row & Hrow & _). vm_compute in Hrow. discriminate. }
  split; apply injective_projections; auto.
Defined.

(** ** What a request leaves alone *)

Lemma delete_subject_store subject_id (current_user : Z * models.User) db :
  (delete_subject subject_id current_user db).2 =
    match subjects db !! subject_id with
    | Some row =>
        if decide (models.s_owner_id row = current_user.1)
        then delete_cascade_subject subject_id db else db
    | None => db
    end.
Proof.
  unfold delete_subject. rewrite lookup_owned_subject.
  destruct (subjects db !! subject_id); [by case_decide|done].
Qed.

(** X8: whatever the payload, a row of [goals], [subjects] or
    [notifications] that belongs to another user is the same row after the
    caller's [POST /goals], [POST /subjects], [POST /notifications/sync],
    [DELETE /subjects/{id}], and, for goals, [DELETE /goals/{id}]. *)
Theorem other_owners_rows_untouched (current_user : Z * models.User)
    (db : DB) :
  (∀ goal k row,
     goals db !! k = Some row →
     goals (create_goal goal current_user db).2 !! k = Some row)
  ∧ (∀ subject k row,
       subjects db !! k = Some row →
       models.s_owner_id row ≠ current_user.1 →
       subjects (create_or_update_subject subject current_user db).2 !! k
       = Some row)
  ∧ (∀ ns k row,
       notifications db !! k = Some row →
       models.n_owner_id row ≠ current_user.1 →
       notifications (sync_notifications ns current_user db).2 !! k
       = Some row)
  ∧ (∀ subject_id k row,
       subjects db !! k = Some row →
       models.s_owner_id row ≠ current_user.1 →
       subjects (delete_subject subject_id current_user db).2 !! k
       = Some row)
  ∧ (∀ goal_id k row,
       goals db !! k = Some row →
       models.g_owner_id row ≠ current_user.1 →
       goals (delete_goal goal_id current_user db).2 !! k = Some row).
Proof.
  split_and!.
  - intros goal k row Hrow. unfold create_goal, sql_insert; simpl.
    destruct (goals db !! schemas.gc_id goal) eqn:Hid; simpl; [done|].
    rewrite lookup_insert_ne; [done|]. congruence.
  - intros subject k row Hrow Hne. rewrite create_or_update_subject_outcome.
    destruct (subjects db !! schemas.sc_id subject) as [row'|] eqn:Hid;
      [case_decide|]; simpl; try done;
      (rewrite lookup_insert_ne; [done|]; congruence).
  - intros ns k row Hrow Hne. rewrite sync_notifications_store.
    commit_cases ns current_user db Hcommit t'; simpl; [|done].
    destruct Hcommit as [[Hall _] ->].
    destruct (last_write k ns) as [n|] eqn:Hlast; [|done].
    apply last_write_Some in Hlast as [Hin <-].
    rewrite Forall_forall in Hall. specialize (Hall n Hin).
    rewrite Hrow in Hall. done.
  - intros subject_id k row Hrow Hne. rewrite delete_subject_store.
    destruct (subjects db !! subject_id) as [row'|] eqn:Hid;
      [case_decide|]; try done.
    unfold delete_cascade_subject, sql_delete; simpl.
    rewrite lookup_delete_ne; [done|]. congruence.
  - intros goal_id k row Hrow Hne. unfold delete_goal.
    rewrite lookup_owned_goal.
    destruct (goals db !! goal_id) as [row'|] eqn:Hid;
      [case_decide|]; try done.
    unfold sql_delete; simpl.
    rewrite lookup_delete_ne; [done|]. congruence.
Qed.

Lemma other_owners_rows_untouched_witness :
  subjects (create_or_update_subject subject_s1 bob alice_subject_db).2 !! "s1"
  = Some (subject_data subject_s1 alice.1)
  ∧ subjects (delete_subject "s1" bob alice_subject_db).2 !! "s1"
    = Some (subject_data subject_s1 alice.1).
Proof.
  destruct (other_owners_rows_untouched bob alice_subject_db)
    as (_ & Hpost & _ & Hdel & _).
  split; [apply Hpost|apply Hdel]; (reflexivity || discriminate).
Defined.

(** X9: each writing handler writes its own table only: [POST /signup]
    the users, [POST /goals] the goals, [POST /subjects] the subjects,
    [POST /notifications/sync] the notifications. *)
Theorem handlers_write_their_table_only
    (get_password_hash : string → string)
    (current_user : Z * models.User) (db : DB) :
  (∀ user, set_users (users db) (signup get_password_hash user db).2 = db)
  ∧ (∀ goal, set_goals (goals db) (create_goal goal current_user db).2 = db)
  ∧ (∀ subject,
       set_subjects (subjects db)
         (create_or_update_subject subject current_user db).2 = db)
  ∧ (∀ ns,
       set_notifications (notifications db)
         (sync_notifications ns current_user db).2 = db).
Proof.
  destruct db as [us gs ss cs ns0]. split_and!.
  - intros user. unfold signup, insert_user, sql_insert; simpl.
    destruct (query_first _ us); simpl; [done|].
    by destruct (us !! next_rowid us).
  - intros goal. unfold create_goal, sql_insert; simpl.
    by destruct (gs !! schemas.gc_id goal).
  - intros subject. rewrite create_or_update_subject_outcome; simpl.
    destruct (ss !! schemas.sc_id subject); [case_decide|]; done.
  - intros ns. unfold sync_notifications.
    by destruct (commit_session _ _).
Qed.

(** ** Batches of notifications *)

Lemma filter_none {A : Type} (P : A → Prop) `{∀ x, Decision (P x)}
    (l : list A) :
  (∀ x, x ∈ l → ¬ P x) → filter P l = [].
Proof.
  intros Hno. destruct (filter P l) as [|x l'] eqn:E; [done|].
  assert (x ∈ filter P l) as Hin by (rewrite E; apply list_elem_of_here).
  apply list_elem_of_filter in Hin as [HP Hin]. by destruct (Hno x Hin).
Qed.

Lemma sync_notifications_after ns (current_user : Z * models.User) db :
  (sync_notifications ns current_user db).2 =
    if decide (sync_admissible current_user.1 ns (notifications db))
    then set_notifications
           (spec_syncMany current_user.1 ns (notifications db)) db
    else db.
Proof. rewrite sync_notifications_outcome. by case_decide. Qed.

(** X10: sending the same batch again changes nothing more: the store
    after two identical [POST /notifications/sync] requests is the store
    after one, for every batch (a rejected batch is rejected again). *)
Theorem sync_notifications_idempotent (ns : list schemas.NotificationCreate)
    (current_user : Z * models.User) (db : DB) :
  (sync_notifications ns current_user
     (sync_notifications ns current_user db).2).2
  = (sync_notifications ns current_user db).2.
Proof.
  rewrite (sync_notifications_after ns current_user db).
  destruct (decide (sync_admissible _ ns (notifications db))) as [Hadm|Hadm].
  - set (t1 := spec_syncMany current_user.1 ns (notifications db)).
    assert (∀ k, t1 !! k =
              match last_write k ns with
              | Some n => Some (notification_data n current_user.1)
              | None => notifications db !! k
              end) as Ht1.
    { intros k. apply lookup_spec_syncMany, Hadm. }
    assert (∀ n, n ∈ ns → owned_by current_user.1 t1 (schemas.nc_id n))
      as Hown.
    { intros n Hin. unfold owned_by. rewrite Ht1.
      destruct (last_write (schemas.nc_id n) ns) as [n'|] eqn:Hlast; [done|].
      apply last_write_None in Hlast. destruct Hlast.
      apply list_elem_of_fmap. eauto. }
    assert (sync_admissible current_user.1 ns t1) as Hadm1.
    { split.
      - apply Forall_forall. intros n Hin.
        apply Hown, owned_by_lookup in Hin as (row & -> & Hrow). done.
      - rewrite filter_none; [constructor|].
        intros n Hin Hp. by apply Hp, Hown. }
    rewrite sync_notifications_after. simpl.
    rewrite decide_True by done.
    unfold set_notifications; simpl. f_equal.
    apply map_eq. intros k.
    rewrite lookup_spec_syncMany by apply Hadm1. fold t1.
    rewrite Ht1. by destruct (last_write k ns).
  - rewrite sync_notifications_after. by rewrite decide_False.
Qed.

(** X11: the empty batch writes nothing; [POST /notifications/sync] then
    answers as [GET /notifications] does. *)
Theorem sync_notifications_empty (current_user : Z * models.User) (db : DB) :
  sync_notifications [] current_user db = read_notifications current_user db.
Proof.
  unfold sync_notifications, commit_session; simpl.
  rewrite map_fold_empty. by destruct db.
Qed.

Lemma filter_key_NoDup {A : Type} (f : A → string) (k : string)
    (l : list A) :
  NoDup (f <$> l) → (length (filter (λ x, f x = k) l) ≤ 1)%nat.
Proof.
  induction l as [|x l IH]; simpl; [lia|].
  rewrite NoDup_cons. intros [Hnin Hnd]. rewrite filter_cons.
  case_decide as Hk; [|by apply IH].
  rewrite (filter_none (λ x, f x = k)); [simpl; lia|].
  intros y Hy Hfy. apply Hnin, list_elem_of_fmap. exists y.
  split; [congruence|done].
Qed.

(** X12: a batch that carries twice an id that is not in the table is
    rejected as a whole and nothing is stored; the session does not flush
    before [commit], so the second element does not find the first. *)
Theorem sync_notifications_repeated_new_id
    (ns : list schemas.NotificationCreate) (k : string)
    (current_user : Z * models.User) (db : DB) :
  notifications db !! k = None →
  (2 ≤ length (filter (λ n, schemas.nc_id n = k) ns))%nat →
  sync_notifications ns current_user db = (inl IntegrityError, db).
Proof.
  intros Hfree Htwice. rewrite sync_notifications_outcome.
  rewrite decide_False; [done|]. intros [_ Hnd].
  apply (filter_key_NoDup schemas.nc_id k) in Hnd.
  rewrite list_filter_filter_l in Hnd; [lia|].
  intros n <- Hown. apply owned_by_lookup in Hown as (row & Hrow & _).
  congruence.
Qed.

Lemma sync_notifications_repeated_new_id_witness :
  sync_notifications [notif "n7" "PENDING"; notif "n7" "COMPLETED"] alice
    two_users
  = (inl IntegrityError, two_users).
Proof.
  apply (sync_notifications_repeated_new_id _ "n7").
  - reflexivity.
  - vm_compute. lia.
Defined.

(** Sent one after the other, the same two elements are both accepted. *)
Example sync_notifications_one_by_one :
  notifications
    (sync_notifications [notif "n7" "COMPLETED"] alice
       (sync_notifications [notif "n7" "PENDING"] alice two_users).2).2
  = {[ "n7" := notification_data (notif "n7" "COMPLETED") 1 ]}.
Proof. vm_compute. reflexivity. Qed.

(** ** Create, overwrite, delete *)

Lemma DB_eq (db db' : DB) :
  users db = users db' → goals db = goals db' →
  subjects db = subjects db' → chapters db = chapters db' →
  notifications db = notifications db' → db = db'.
Proof. destruct db, db'; simpl. by intros -> -> -> -> ->. Qed.

(** X13: a goal posted under an unused id and then deleted by the same
    caller leaves the goals table as it was; when no subject names that
    id, the whole store is as it was. *)
Theorem create_then_delete_goal (goal : schemas.GoalCreate)
    (current_user : Z * models.User) (db : DB) :
  goals db !! schemas.gc_id goal = None →
  let db1 := (create_goal goal current_user db).2 in
  let out := delete_goal (schemas.gc_id goal) current_user db1 in
  out.1 = inr "Goal deleted"
  ∧ goals out.2 = goals db
  ∧ (map_Forall (λ _ s, models.s_goal_id s ≠ schemas.gc_id goal)
       (subjects db) → out.2 = db).
Proof.
  intros Hfree db1 out.
  assert (db1 =
          set_goals
            (<[schemas.gc_id goal :=
                 models.mkGoal (schemas.gc_title goal) (schemas.gc_type goal)
                   (schemas.gc_details goal) current_user.1]> (goals db)) db)
    as Hdb1.
  { unfold db1, create_goal, sql_insert; simpl. by rewrite Hfree. }
  unfold out. rewrite Hdb1. erewrite delete_goal_found; simpl;
    [|apply lookup_insert_eq|done].
  rewrite delete_insert_id by done. split_and!; [done..|].
  intros Hnone. unfold query_delete. rewrite map_filter_id.
  - by destruct db.
  - intros k s Hk; simpl. by apply (Hnone k s).
Qed.

Lemma create_then_delete_goal_witness :
  delete_goal "g1" bob (create_goal goal_g1 bob two_users).2
  = (inr "Goal deleted", two_users).
Proof.
  destruct (create_then_delete_goal goal_g1 bob two_users)
    as (Hok & _ & Hback); [reflexivity|].
  apply injective_projections; [exact Hok|].
  apply Hback. refine (bool_decide_unpack _ _). vm_compute. exact I.
Defined.

(** X14: a subject posted under an unused id and then deleted by the same
    caller leaves the subjects table as it was; when no chapter names that
    id, the whole store is as it was. *)
Theorem create_then_delete_subject (subject : schemas.SubjectCreate)
    (current_user : Z * models.User) (db : DB) :
  subjects db !! schemas.sc_id subject = None →
  let db1 := (create_or_update_subject subject current_user db).2 in
  let out := delete_subject (schemas.sc_id subject) current_user db1 in
  out.1 = inr "Subject deleted"
  ∧ subjects out.2 = subjects db
  ∧ (map_Forall (λ _ c, models.c_subject_id c ≠ schemas.sc_id subject)
       (chapters db) → out.2 = db).
Proof.
  intros Hfree db1 out.
  assert (db1 =
          set_subjects
            (<[schemas.sc_id subject := subject_data subject current_user.1]>
               (subjects db)) db) as Hdb1.
  { unfold db1. rewrite create_or_update_subject_outcome. by rewrite Hfree. }
  assert (out =
          (inr "Subject deleted",
           delete_cascade_subject (schemas.sc_id subject) db1)) as ->.
  { unfold out, delete_subject. rewrite lookup_owned_subject, Hdb1. simpl.
    rewrite lookup_insert_eq. by rewrite decide_True. }
  assert (subjects (delete_cascade_subject (schemas.sc_id subject) db1)
          = subjects db) as Hsubjects.
  { rewrite Hdb1. unfold delete_cascade_subject, sql_delete; simpl.
    by rewrite delete_insert_id. }
  split_and!; [done..|]. intros Hnone.
  assert (chapters (delete_cascade_subject (schemas.sc_id subject) db1)
          = chapters db) as Hchapters.
  { apply map_eq. intros c. rewrite lookup_delete_cascade_chapters, Hdb1.
    simpl. destruct (chapters db !! c) as [ch|] eqn:Hc; [|done].
    rewrite decide_False; [done|]. by apply (Hnone c ch). }
  simpl. apply DB_eq; [by rewrite Hdb1..|done|done|by rewrite Hdb1].
Qed.

Lemma create_then_delete_subject_witness :
  delete_subject "s1" alice
    (create_or_update_subject subject_s1 alice two_users).2
  = (inr "Subject deleted", two_users).
Proof.
  destruct (create_then_delete_subject subject_s1 alice two_users)
    as (Hok & _ & Hback); [reflexivity|].
  apply injective_projections; [exact Hok|].
  apply Hback. refine (bool_decide_unpack _ _). vm_compute. exact I.
Defined.

(** X15: the last post wins. When the id is not held by another owner,
    posting a subject and then another payload under the same id leaves
    the store as posting the second payload alone does. *)
Theorem upsert_subject_last_wins (first second : schemas.SubjectCreate)
    (current_user : Z * models.User) (db : DB) :
  schemas.sc_id first = schemas.sc_id second →
  from_option (λ row, models.s_owner_id row = current_user.1) True
    (subjects db !! schemas.sc_id second) →
  (create_or_update_subject second current_user
     (create_or_update_subject first current_user db).2).2
  = (create_or_update_subject second current_user db).2.
Proof.
  intros Hid Hfree.
  rewrite (create_or_update_subject_outcome first), Hid.
  rewrite (create_or_update_subject_outcome second current_user db).
  destruct (subjects db !! schemas.sc_id second) as [row|]; simpl in *.
  - rewrite !decide_True by done. simpl.
    rewrite create_or_update_subject_outcome. simpl.
    rewrite lookup_insert_eq, decide_True by done. simpl.
    unfold set_subjects; simpl. by rewrite insert_insert_eq.
  - rewrite create_or_update_subject_outcome. simpl.
    rewrite lookup_insert_eq, decide_True by done. simpl.
    unfold set_subjects; simpl. by rewrite insert_insert_eq.
Qed.

Lemma upsert_subject_last_wins_witness :
  let renamed :=
    schemas.mkSubjectCreate "s1" "g1" "Algebra" "#00ff00" "HOURS" JNull
      2.5%float (Some 40%float) in
  (create_or_update_subject renamed alice
     (create_or_update_subject subject_s1 alice two_users).2).2
  = (create_or_update_subject renamed alice two_users).2.
Proof.
  apply upsert_subject_last_wins; [reflexivity|]. vm_compute. exact I.
Defined.

(** ** The engine URL *)

Lemma strip_prefix_Some p s rest :
  database.strip_prefix p s = Some rest ↔ s = p +:+ rest.
Proof.
  revert s. induction p as [|a p IH]; intros s; simpl.
  - split; [by intros [= ->]|by intros ->].
  - destruct s as [|b s]; [done|].
    case_decide as Hab.
    + subst b. rewrite IH. split; [by intros ->|by intros [= ->]].
    + split; [done|]. intros [= -> _]. done.
Qed.

(** X16: the URL handed to [create_engine] never begins with
    ["postgres://"]: a [DATABASE_URL] that does has that scheme replaced
    by ["postgresql://"] with the rest kept, and any other URL is passed
    on unchanged. *)
Theorem database_url_scheme (environ : gmap string string) :
  let raw :=
    database.getenv environ "DATABASE_URL" "sqlite:///./study_tracker.db" in
  let url := database.SQLALCHEMY_DATABASE_URL environ in
  database.startswith url "postgres://" = false
  ∧ (∀ rest, raw = "postgres://" +:+ rest → url = "postgresql://" +:+ rest)
  ∧ (database.startswith raw "postgres://" = false → url = raw).
Proof.
  intros raw url. unfold url, database.SQLALCHEMY_DATABASE_URL. fold raw.
  destruct (database.startswith raw "postgres://") eqn:Hstart.
  - unfold database.startswith in Hstart.
    apply bool_decide_eq_true in Hstart as [rest Hrest].
    apply strip_prefix_Some in Hrest. rewrite Hrest.
    split_and!; [vm_compute; reflexivity| |done].
    intros rest' Heq. apply strip_prefix_Some in Heq.
    vm_compute in Heq. injection Heq as <-. vm_compute. reflexivity.
  - split_and!; [done| |done].
    intros rest Heq. rewrite Heq in Hstart. vm_compute in Hstart. done.
Qed.

Lemma database_url_scheme_witness :
  database.SQLALCHEMY_DATABASE_URL
    {[ "DATABASE_URL" := "postgres://u:p@db.example.com:5432/study" ]}
  = "postgresql://u:p@db.example.com:5432/study".
Proof.
  apply (database_url_scheme
           {[ "DATABASE_URL" := "postgres://u:p@db.example.com:5432/study" ]}).
  reflexivity.
Defined.

(** X17: replacing the scheme does not change whether the SQLite-only
    [check_same_thread] argument is passed: the [connect_args] computed
    from the final URL are those of the URL as configured. *)
Theorem connect_args_unaffected_by_scheme (environ : gmap string string) :
  database.connect_args (database.SQLALCHEMY_DATABASE_URL environ)
  = database.connect_args
      (database.getenv environ "DATABASE_URL" "sqlite:///./study_tracker.db").
Proof.
  unfold database.SQLALCHEMY_DATABASE_URL.
  set (raw := database.getenv environ "DATABASE_URL" _).
  destruct (database.startswith raw "postgres://") eqn:Hstart; [|done].
  unfold database.startswith in Hstart.
  apply bool_decide_eq_true in Hstart as [rest Hrest].
  apply strip_prefix_Some in Hrest. rewrite Hrest.
  unfold database.connect_args. vm_compute. reflexivity.
Qed.

Example connect_args_default :
  database.connect_args (database.SQLALCHEMY_DATABASE_URL ∅)
  = [("check_same_thread", false)]
  ∧ database.connect_args
      (database.SQLALCHEMY_DATABASE_URL
         {[ "DATABASE_URL" := "postgres://u:p@db.example.com:5432/study" ]})
    = [].
Proof. vm_compute. split; reflexivity. Qed.

(** ** What the writing endpoints answer *)


(** X19: [POST /notifications/sync] answers with a list only when there
    is nothing to list: the batch is empty and the caller owns no
    notification. Every other accepted batch is committed and then fails
    on building the response model. *)
Theorem sync_notifications_answers_only_empty
    (ns : list schemas.NotificationCreate)
    (current_user : Z * models.User) (db : DB)
    (answer : list schemas.Notification) :
  (sync_notifications ns current_user db).1 = inr answer →
  answer = [] ∧ ns = []
  ∧ map_Forall (λ _ n, models.n_owner_id n ≠ current_user.1)
      (notifications db).
Proof.
  rewrite sync_notifications_outcome.
  destruct (decide (sync_admissible _ ns (notifications db))) as [Hadm|];
    [|done].
  rewrite read_notifications_answer. simpl.
  set (db' := set_notifications _ db).
  destruct (db_notifs current_user db') as [|r l] eqn:E; [|done].
  intros [= <-].
  assert (∀ k row, notifications db' !! k = Some row →
                   models.n_owner_id row ≠ current_user.1) as Hnone.
  { intros k row Hk Hown.
    assert ((k, row) ∈ db_notifs current_user db') as Hin
      by by apply elem_of_db_notifs.
    rewrite E in Hin. by apply not_elem_of_nil in Hin. }
  assert (ns = []) as ->.
  { destruct ns as [|n ns'] using rev_ind; [done|].
    destruct (Hnone (schemas.nc_id n) (notification_data n current_user.1));
      [|done].
    unfold db'; simpl. rewrite lookup_spec_syncMany by apply Hadm.
    by rewrite last_write_snoc, decide_True. }
  split_and!; [done..|]. intros k row Hk. by apply (Hnone k row).
Qed.

Lemma sync_notifications_answers_only_empty_witness :
  @nil schemas.Notification = [] ∧ @nil schemas.NotificationCreate = []
  ∧ map_Forall (λ _ n, models.n_owner_id n ≠ bob.1)
      (notifications alice_notif_db).
Proof.
  apply (sync_notifications_answers_only_empty [] bob alice_notif_db []).
  vm_compute. reflexivity.
Defined.
